(** * Image Distortion Corrector: corner-point pipeline

    A shallow embedding of the browser front end of the image distortion
    corrector (frontend/src/utils/api.js, the ImageDistortionCorrector
    component, utils/mock.js) and of the perspective-correction contract
    that contracts.md delegates to the backend.

    Conventions of the embedding.
    - JavaScript numbers are idealised as exact rationals ([Qc], canonical
      fractions with Leibniz equality).  The code never divides by zero on
      the paths modelled here: each conversion guards its own divisor.
    - A React event handler reads the state captured by its closure (the
      snapshot of the last render) and queues state updates, toasts and
      network requests.  A handler is therefore a function from the
      snapshot to a list of actions; [run] commits the actions in order.
      Events are handled one at a time, so the snapshot a handler sees is
      the state its updates are committed to ([dispatch]).
    - The HTTP transport (axios) is an oracle passed as a parameter. *)

From Stdlib Require Import QArith Qcanon ZArith List String Bool Arith Lia.
Import ListNotations.

Local Open Scope string_scope.
Local Open Scope list_scope.

(** ** Numbers *)

Abbreviation num := Qc.

Definition of_Z (z : Z) : num := Q2Qc (inject_Z z).

(** [a === 0] on numbers. *)
Definition is_zero (a : num) : bool := Qc_eq_bool a 0%Qc.

(** [a <= 0] on numbers. *)
Definition Qcleb (a b : num) : bool :=
  match (a ?= b)%Qc with Gt => false | _ => true end.

(** ** JavaScript values that appear as point identifiers

    [draggedPoint] starts as [null], is set to a point's numeric id on
    mouse-down and back to [null] on mouse-up.  The second argument of
    [handlePointDrag] is whatever the caller passes; when the handler is
    used directly as [onMouseMove] it is [undefined]. *)

Inductive JsId : Type :=
| JsNull
| JsUndefined
| JsNumber (n : nat).

(** Strict equality [===] restricted to these values. *)
Definition strict_eq (a b : JsId) : bool :=
  match a, b with
  | JsNull, JsNull => true
  | JsUndefined, JsUndefined => true
  | JsNumber n, JsNumber m => Nat.eqb n m
  | _, _ => false
  end.

(** Truthiness of a value that is [null] or a string: [null] and the
    empty string are falsy. *)
Definition truthy (v : option string) : bool :=
  match v with
  | None => false
  | Some EmptyString => false
  | Some (String _ _) => true
  end.

(** ** Coordinate mapper *)

Module Geometry.

Record Point2D : Type := mkPoint { x : num; y : num }.

Record Size : Type := mkSize { width : num; height : num }.

Local Open Scope Qc_scope.

(** [convertToImageCoordinates] of the component; [canvasSize] and
    [imageSize] are the state captured by the callback. *)
Definition convertToImageCoordinates (canvasSize imageSize : Size)
           (canvasX canvasY : num) : Point2D :=
  if is_zero (width canvasSize) || is_zero (height canvasSize)
  then {| x := canvasX; y := canvasY |}
  else
    let scaleX := width imageSize / width canvasSize in
    let scaleY := height imageSize / height canvasSize in
    {| x := canvasX * scaleX; y := canvasY * scaleY |}.

(** [convertToCanvasCoordinates] of the component.  Its guard tests the
    image size, the divisor of its own scale factors. *)
Definition convertToCanvasCoordinates (canvasSize imageSize : Size)
           (imageX imageY : num) : Point2D :=
  if is_zero (width imageSize) || is_zero (height imageSize)
  then {| x := imageX; y := imageY |}
  else
    let scaleX := width canvasSize / width imageSize in
    let scaleY := height canvasSize / height imageSize in
    {| x := imageX * scaleX; y := imageY * scaleY |}.

End Geometry.

(** ** REST client (utils/api.js) and the mock utilities (utils/mock.js) *)

Module Api.

Record File : Type := mkFile { type : string; size : Z }.

(** A thrown [Error], identified by its message. *)
Record Error : Type := mkError { message : string }.

Definition validTypes : list string :=
  ["image/jpeg"; "image/jpg"; "image/png"].

Definition maxSize : Z := 10 * 1024 * 1024.

(** [Array.prototype.includes] on strings. *)
Definition includes (l : list string) (s : string) : bool :=
  existsb (String.eqb s) l.

(** The MIME type is one of the three accepted ones. *)
Definition valid_type (file : File) : Prop :=
  type file = "image/jpeg" \/ type file = "image/jpg" \/ type file = "image/png".

Definition invalid_format : Error :=
  mkError "Invalid file format. Please upload JPEG or PNG images only.".

Definition too_large : Error :=
  mkError "File size too large. Please upload images smaller than 10MB.".

(** [validateImageFile]: [inl e] is [throw e], [inr true] is
    [return true]. *)
Definition validateImageFile (file : File) : Error + bool :=
  if negb (includes validTypes (type file)) then inl invalid_format
  else if (size file >? maxSize)%Z then inl too_large
  else inr true.

Record UploadData : Type := mkUploadData { image_id : string }.

Record ProcessData : Type :=
  mkProcessData { processed_image_url : string; processing_time : string }.

(** What axios rejects with: [error.response?.data?.detail], absent
    ([None]) or a string. *)
Record AxiosError : Type := mkAxiosError { detail : option string }.

Inductive Request : Type :=
| PostUploadImage (file : File)
| PostProcessImage (image_id : option string)
                   (corner_points : list Geometry.Point2D).

(** [detail || fallback] *)
Definition or_default (d : option string) (fallback : string) : string :=
  match d with
  | Some (String c s) => String c s
  | _ => fallback
  end.

Section Transport.

Variable BACKEND_URL : string.
Variable axios_post_upload : File -> AxiosError + UploadData.
Variable axios_post_process :
  option string -> list Geometry.Point2D -> AxiosError + ProcessData.

Definition API : string := (BACKEND_URL ++ "/api")%string.

(** [uploadImage]: the request sent, and the value returned or the
    error thrown. *)
Definition uploadImage (file : File) : list Request * (Error + UploadData) :=
  ([PostUploadImage file],
   match axios_post_upload file with
   | inr data => inr data
   | inl error =>
       inl (mkError (or_default (detail error) "Failed to upload image"))
   end).

Definition processImage (imageId : option string)
           (cornerPoints : list Geometry.Point2D)
  : list Request * (Error + ProcessData) :=
  ([PostProcessImage imageId cornerPoints],
   match axios_post_process imageId cornerPoints with
   | inr data => inr data
   | inl error =>
       inl (mkError (or_default (detail error) "Failed to process image"))
   end).

Definition getImageUrl (imageId : string) (type : string) : string :=
  (API ++ "/images/" ++ imageId ++ "/" ++ type)%string.

End Transport.

End Api.

Module Mock.

Import Api.

(** [validateImageFormat] of utils/mock.js. *)
Definition validateImageFormat (file : File) : Error + bool :=
  let validTypes := ["image/jpeg"; "image/jpg"; "image/png"] in
  let maxSize := (10 * 1024 * 1024)%Z in
  if negb (includes validTypes (type file)) then
    inl (mkError "Invalid file format. Please upload JPEG or PNG images only.")
  else if (size file >? maxSize)%Z then
    inl (mkError "File size too large. Please upload images smaller than 10MB.")
  else inr true.

End Mock.

(** ** The ImageDistortionCorrector component *)

Module Corrector.

Import Geometry.

(** An element of [cornerPoints]: image-space [x], [y], the sequential
    [id], and the display-space shadow [displayX], [displayY]. *)
Module Corner.
Record CornerPoint : Type := mk {
  x : num;
  y : num;
  id : nat;
  displayX : num;
  displayY : num
}.
End Corner.

Abbreviation CornerPoint := Corner.CornerPoint.

Record Toast : Type := mkToast {
  title : string;
  description : string;
  variant : option string
}.

(** The [useState] cells of the component. *)
Record Session : Type := mkSession {
  imageId : option string;
  originalImageUrl : option string;
  processedImageUrl : option string;
  cornerPoints : list CornerPoint;
  isUploading : bool;
  isProcessing : bool;
  draggedPoint : JsId;
  canvasSize : Size;
  imageSize : Size
}.

(** A call of one of the state setters.  [setCornerPoints] is given an
    updater function of the previous value; a plain value [v] is the
    constant updater. *)
Inductive Update : Type :=
| setImageId (v : option string)
| setOriginalImageUrl (v : option string)
| setProcessedImageUrl (v : option string)
| setCornerPoints (f : list CornerPoint -> list CornerPoint)
| setIsUploading (v : bool)
| setIsProcessing (v : bool)
| setDraggedPoint (v : JsId)
| setCanvasSize (v : Size)
| setImageSize (v : Size).

Inductive Action : Type :=
| Upd (u : Update)
| Notify (t : Toast)
| Send (r : Api.Request).

(** The session together with what it has emitted so far. *)
Record World : Type := mkWorld {
  session : Session;
  toasts : list Toast;
  requests : list Api.Request
}.

Definition commit (u : Update) (s : Session) : Session :=
  match u with
  | setImageId v =>
      mkSession v (originalImageUrl s) (processedImageUrl s) (cornerPoints s)
                (isUploading s) (isProcessing s) (draggedPoint s)
                (canvasSize s) (imageSize s)
  | setOriginalImageUrl v =>
      mkSession (imageId s) v (processedImageUrl s) (cornerPoints s)
                (isUploading s) (isProcessing s) (draggedPoint s)
                (canvasSize s) (imageSize s)
  | setProcessedImageUrl v =>
      mkSession (imageId s) (originalImageUrl s) v (cornerPoints s)
                (isUploading s) (isProcessing s) (draggedPoint s)
                (canvasSize s) (imageSize s)
  | setCornerPoints f =>
      mkSession (imageId s) (originalImageUrl s) (processedImageUrl s)
                (f (cornerPoints s))
                (isUploading s) (isProcessing s) (draggedPoint s)
                (canvasSize s) (imageSize s)
  | setIsUploading v =>
      mkSession (imageId s) (originalImageUrl s) (processedImageUrl s)
                (cornerPoints s) v (isProcessing s) (draggedPoint s)
                (canvasSize s) (imageSize s)
  | setIsProcessing v =>
      mkSession (imageId s) (originalImageUrl s) (processedImageUrl s)
                (cornerPoints s) (isUploading s) v (draggedPoint s)
                (canvasSize s) (imageSize s)
  | setDraggedPoint v =>
      mkSession (imageId s) (originalImageUrl s) (processedImageUrl s)
                (cornerPoints s) (isUploading s) (isProcessing s) v
                (canvasSize s) (imageSize s)
  | setCanvasSize v =>
      mkSession (imageId s) (originalImageUrl s) (processedImageUrl s)
                (cornerPoints s) (isUploading s) (isProcessing s)
                (draggedPoint s) v (imageSize s)
  | setImageSize v =>
      mkSession (imageId s) (originalImageUrl s) (processedImageUrl s)
                (cornerPoints s) (isUploading s) (isProcessing s)
                (draggedPoint s) (canvasSize s) v
  end.

Definition perform (w : World) (a : Action) : World :=
  match a with
  | Upd u => mkWorld (commit u (session w)) (toasts w) (requests w)
  | Notify t => mkWorld (session w) (toasts w ++ [t]) (requests w)
  | Send r => mkWorld (session w) (toasts w) (requests w ++ [r])
  end.

Definition run (acts : list Action) (w : World) : World :=
  fold_left perform acts w.

(** One event: the handler runs on the rendered snapshot and its
    actions are committed to that same state. *)
Definition dispatch (handler : Session -> list Action) (w : World) : World :=
  run (handler (session w)) w.

(** [event.clientX], [event.clientY] *)
Record MouseEvent : Type := mkMouse { clientX : num; clientY : num }.

(** [canvas.getBoundingClientRect()] *)
Record DOMRect : Type := mkRect { left : num; top : num }.

(** The [img] element behind [imageRef]: its intrinsic size
    ([naturalWidth], [naturalHeight]) and the size of its bounding
    rectangle. *)
Record ImageElement : Type := mkImage { natural : Size; bounding : Size }.

Definition all_corners_selected : Toast :=
  mkToast "All corners selected!" "Ready to process the image" None.

Definition incomplete_selection : Toast :=
  mkToast "Incomplete selection" "Please select all 4 corner points"
          (Some "destructive").

Definition selection_reset : Toast :=
  mkToast "Selection reset" "You can now select new corner points" None.

Definition upload_succeeded : Toast :=
  mkToast "Image uploaded successfully!"
          "Click on four corners to define the distorted area" None.

Definition upload_failed (error : Api.Error) : Toast :=
  mkToast "Upload failed" (Api.message error) (Some "destructive").

Definition processing_succeeded (result : Api.ProcessData) : Toast :=
  mkToast "Image processed successfully!"
          ("Processing completed in " ++ Api.processing_time result)%string None.

Definition processing_failed (error : Api.Error) : Toast :=
  mkToast "Processing failed" (Api.message error) (Some "destructive").

Local Open Scope Qc_scope.

Definition handleCanvasClick (rect : DOMRect) (event : MouseEvent)
           (s : Session) : list Action :=
  if negb (truthy (originalImageUrl s)) || (4 <=? List.length (cornerPoints s))%nat
  then []
  else
    let canvasX := clientX event - left rect in
    let canvasY := clientY event - top rect in
    let imageCoords :=
      convertToImageCoordinates (canvasSize s) (imageSize s) canvasX canvasY in
    let newPoint :=
      {| Corner.x := x imageCoords;
         Corner.y := y imageCoords;
         Corner.id := List.length (cornerPoints s);
         Corner.displayX := canvasX;
         Corner.displayY := canvasY |} in
    Upd (setCornerPoints (fun prev => prev ++ [newPoint]))
    :: (if (List.length (cornerPoints s) =? 3)%nat
        then [Notify all_corners_selected]
        else []).

Definition handlePointDrag (rect : DOMRect) (event : MouseEvent)
           (pointId : JsId) (s : Session) : list Action :=
  if negb (strict_eq (draggedPoint s) pointId) then []
  else
    let canvasX := clientX event - left rect in
    let canvasY := clientY event - top rect in
    let imageCoords :=
      convertToImageCoordinates (canvasSize s) (imageSize s) canvasX canvasY in
    [Upd (setCornerPoints (fun prev =>
       map (fun point =>
              if strict_eq (JsNumber (Corner.id point)) pointId
              then {| Corner.x := x imageCoords;
                      Corner.y := y imageCoords;
                      Corner.id := Corner.id point;
                      Corner.displayX := canvasX;
                      Corner.displayY := canvasY |}
              else point) prev))].

Definition resetSelection (s : Session) : list Action :=
  [Upd (setCornerPoints (fun _ => []));
   Upd (setProcessedImageUrl None);
   Notify selection_reset].

(** [onMouseDown] of a corner marker and [onMouseUp] of the canvas. *)
Definition beginDrag (point : CornerPoint) (s : Session) : list Action :=
  [Upd (setDraggedPoint (JsNumber (Corner.id point)))].

Definition endDrag (s : Session) : list Action :=
  [Upd (setDraggedPoint JsNull)].

(** [updateCanvasSize]; [canvas] tells whether [canvasRef.current] is
    set, [img] is [imageRef.current]. *)
Definition updateCanvasSize (canvas : bool) (img : option ImageElement)
           (s : Session) : list Action :=
  match canvas, img with
  | true, Some img =>
      let rect := bounding img in
      [Upd (setCanvasSize {| width := width rect; height := height rect |})]
  | _, _ => []
  end.

Definition handleImageLoad (canvas : bool) (img : option ImageElement)
           (s : Session) : list Action :=
  match img with
  | Some image =>
      Upd (setImageSize {| width := width (natural image);
                           height := height (natural image) |})
      :: updateCanvasSize canvas img s
  | None => []
  end.

(** The effect that refreshes the display coordinates when the canvas
    size changes. *)
Definition displayCoordinatesEffect (s : Session) : list Action :=
  if (0 <? List.length (cornerPoints s))%nat
     && negb (Qcleb (width (canvasSize s)) 0)
  then
    [Upd (setCornerPoints (fun prev =>
       map (fun point =>
              let displayCoords :=
                convertToCanvasCoordinates (canvasSize s) (imageSize s)
                                           (Corner.x point) (Corner.y point) in
              {| Corner.x := Corner.x point;
                 Corner.y := Corner.y point;
                 Corner.id := Corner.id point;
                 Corner.displayX := x displayCoords;
                 Corner.displayY := y displayCoords |}) prev))]
  else [].

Section Handlers.

Variable BACKEND_URL : string.
Variable axios_post_upload : Api.File -> Api.AxiosError + Api.UploadData.
Variable axios_post_process :
  option string -> list Point2D -> Api.AxiosError + Api.ProcessData.

(** [handleImageUpload]; [file] is [event.target.files[0]], absent
    when the file dialog was dismissed.  The [try] block stops at the
    first throw, [catch] turns the error into a toast, [finally]
    always runs. *)
Definition handleImageUpload (file : option Api.File) (s : Session)
  : list Action :=
  match file with
  | None => []
  | Some file =>
      Upd (setIsUploading true)
      :: match Api.validateImageFile file with
         | inl error => [Notify (upload_failed error)]
         | inr _ =>
             let (sent, outcome) := Api.uploadImage axios_post_upload file in
             map Send sent
             ++ match outcome with
                | inl error => [Notify (upload_failed error)]
                | inr result =>
                    [Upd (setImageId (Some (Api.image_id result)));
                     Upd (setOriginalImageUrl
                            (Some (Api.getImageUrl BACKEND_URL
                                     (Api.image_id result) "original")));
                     Upd (setCornerPoints (fun _ => []));
                     Upd (setProcessedImageUrl None);
                     Notify upload_succeeded]
                end
         end
      ++ [Upd (setIsUploading false)]
  end.

Definition processImageDistortion (s : Session) : list Action :=
  if negb (List.length (cornerPoints s) =? 4)%nat
  then [Notify incomplete_selection]
  else
    Upd (setIsProcessing true)
    :: (let apiCornerPoints :=
          map (fun point => {| x := Corner.x point; y := Corner.y point |})
              (cornerPoints s) in
        let (sent, outcome) :=
          Api.processImage axios_post_process (imageId s) apiCornerPoints in
        map Send sent
        ++ match outcome with
           | inl error => [Notify (processing_failed error)]
           | inr result =>
               [Upd (setProcessedImageUrl
                       (Some (Api.processed_image_url result)));
                Notify (processing_succeeded result)]
           end)
    ++ [Upd (setIsProcessing false)].

End Handlers.

(** The initial render: every cell at its [useState] default. *)
Definition initial : World :=
  mkWorld (mkSession None None None [] false false JsNull
                     (mkSize 0 0) (mkSize 0 0)) [] [].

(** *** The corner-set state machine *)

Inductive Op : Type :=
| AddPoint (rect : DOMRect) (event : MouseEvent)
| DragPoint (rect : DOMRect) (event : MouseEvent) (pointId : JsId)
| Reset
| BeginDrag (point : CornerPoint)
| EndDrag
| Relayout (canvas : bool) (img : option ImageElement).

Definition handler_of (op : Op) : Session -> list Action :=
  match op with
  | AddPoint rect event => handleCanvasClick rect event
  | DragPoint rect event pointId => handlePointDrag rect event pointId
  | Reset => resetSelection
  | BeginDrag point => beginDrag point
  | EndDrag => endDrag
  | Relayout canvas img => updateCanvasSize canvas img
  end.

(** A window resize runs [updateCanvasSize]; the effect runs after the
    render that follows, on the new canvas size. *)
Definition step (w : World) (op : Op) : World :=
  match op with
  | Relayout true (Some _) =>
      dispatch displayCoordinatesEffect (dispatch (handler_of op) w)
  | _ => dispatch (handler_of op) w
  end.

Definition steps (ops : list Op) (w : World) : World := fold_left step ops w.

Definition count (w : World) : nat := List.length (cornerPoints (session w)).

Definition ids (w : World) : list nat :=
  map Corner.id (cornerPoints (session w)).

(** At most four points, numbered [0, ..., count - 1] in insertion
    order. *)
Definition invariant (w : World) : Prop :=
  (count w <= 4)%nat /\ ids w = seq 0 (count w).

End Corrector.

(** ** Perspective correction contract

    The transform itself is computed by the backend
    ([cv2.getPerspectiveTransform], contracts.md), which is not part of
    the front-end sources.  This module follows the wording of the
    contract: eight linear equations from four correspondences, the
    bottom-right entry fixed to 1, singular systems rejected. *)

Module Homography.

Import Geometry.
Local Open Scope Qc_scope.

Record Matrix3 : Type := mkMatrix3 {
  h11 : num; h12 : num; h13 : num;
  h21 : num; h22 : num; h23 : num;
  h31 : num; h32 : num; h33 : num
}.

Definition identity : Matrix3 := mkMatrix3 1 0 0 0 1 0 0 0 1.

Inductive Outcome : Type :=
| Ok (M : Matrix3)
| MalformedInput
| UnsolvableTransform
| InvalidDimensions.

(** Modelled from the spec: one equation of the linear system, its
    coefficients and its right-hand side. *)
Definition Equation : Type := (list num * num)%type.

Fixpoint dot (cs xs : list num) : num :=
  match cs, xs with
  | c :: cs', v :: xs' => c * v + dot cs' xs'
  | _, _ => 0
  end.

Definition holds (xs : list num) (e : Equation) : Prop :=
  dot (fst e) xs = snd e.

(** Modelled from the spec: the destination corners
    [(0,0), (W,0), (W,H), (0,H)], in this order. *)
Definition corners (W H : num) : list Point2D :=
  [mkPoint 0 0; mkPoint W 0; mkPoint W H; mkPoint 0 H].

(** Modelled from the spec: the two equations that one correspondence
    [(x,y) -> (u,v)] contributes to the system in the unknowns
    [h11 h12 h13 h21 h22 h23 h31 h32], with [h33 = 1]:
    [h11 x + h12 y + h13 - u (h31 x + h32 y) = u] and
    [h21 x + h22 y + h23 - v (h31 x + h32 y) = v]. *)
Definition equations (c : Point2D * Point2D) : list Equation :=
  let (s, d) := c in
  [ ([x s; y s; 1; 0; 0; 0; - (x d * x s); - (x d * y s)], x d);
    ([0; 0; 0; x s; y s; 1; - (y d * x s); - (y d * y s)], y d) ].

(** Modelled from the spec: a step of the solver.  The first equation
    whose leading coefficient is not zero, and the remaining equations. *)
Fixpoint pivot (rows : list Equation) : option (Equation * list Equation) :=
  match rows with
  | [] => None
  | r :: rest =>
      if is_zero (hd 0 (fst r)) then
        match pivot rest with
        | Some (p, others) => Some (p, r :: others)
        | None => None
        end
      else Some (r, rest)
  end.

Fixpoint sub_scaled (r : list num) (k : num) (p : list num) : list num :=
  match r, p with
  | a :: r', b :: p' => (a - k * b) :: sub_scaled r' k p'
  | _, _ => []
  end.

(** Modelled from the spec: a step of the solver.  [r - (r1/p1) p] with
    its leading zero dropped. *)
Definition eliminate (p r : Equation) : Equation :=
  let k := hd 0 (fst r) / hd 0 (fst p) in
  (sub_scaled (tl (fst r)) k (tl (fst p)), snd r - k * snd p).

(** Modelled from the spec: solving the linear system, by elimination of
    one unknown after the other and back substitution.  [None] when no
    pivot exists for some unknown (the system is singular) or when an
    equation without unknowns is contradictory. *)
Fixpoint solve (n : nat) (rows : list Equation) : option (list num) :=
  match n with
  | O => if forallb (fun r => is_zero (snd r)) rows then Some [] else None
  | S n' =>
      match pivot rows with
      | None => None
      | Some (p, rest) =>
          match solve n' (map (eliminate p) rest) with
          | None => None
          | Some xs =>
              Some ((snd p - dot (tl (fst p)) xs) / hd 0 (fst p) :: xs)
          end
      end
  end.

(** Modelled from the spec: the transform that maps the four source
    points onto the corners of the [W] x [H] destination rectangle.
    Rejections: other than four points, non-positive destination
    dimensions, singular system. *)
Definition getPerspectiveTransform (src : list Point2D) (W H : num) : Outcome :=
  match src with
  | [_; _; _; _] =>
      if Qcleb W 0 || Qcleb H 0 then InvalidDimensions
      else
        match solve 8 (flat_map equations (combine src (corners W H))) with
        | Some [a; b; c; d; e; f; g; h] => Ok (mkMatrix3 a b c d e f g h 1)
        | _ => UnsolvableTransform
        end
  | _ => MalformedInput
  end.

(** Modelled from the spec: the three coordinates of [M (x, y, 1)]. *)
Definition numerator_x (M : Matrix3) (p : Point2D) : num :=
  h11 M * x p + h12 M * y p + h13 M.

Definition numerator_y (M : Matrix3) (p : Point2D) : num :=
  h21 M * x p + h22 M * y p + h23 M.

Definition denominator (M : Matrix3) (p : Point2D) : num :=
  h31 M * x p + h32 M * y p + h33 M.

(** Modelled from the spec: applying [M] to [(x, y, 1)] and
    dehomogenizing; undefined when the third coordinate vanishes. *)
Definition transform (M : Matrix3) (p : Point2D) : option Point2D :=
  let w := denominator M p in
  if is_zero w then None
  else Some {| x := numerator_x M p / w; y := numerator_y M p / w |}.

(** The homography equations of the correspondence [p -> q]. *)
Definition solves (M : Matrix3) (p q : Point2D) : Prop :=
  numerator_x M p = x q * denominator M p /\
  numerator_y M p = y q * denominator M p.

(** Twice the signed area of the triangle [p q r]; zero exactly when
    the three points lie on one line. *)
Definition orient (p q r : Point2D) : num :=
  (x q - x p) * (y r - y p) - (y q - y p) * (x r - x p).

Definition collinear (p q r : Point2D) : Prop := orient p q r = 0.

(** All the points on one line: every triple is collinear. *)
Definition all_collinear (ps : list Point2D) : Prop :=
  forall p q r, In p ps -> In q ps -> In r ps -> collinear p q r.

(** No three of the four points on one line. *)
Definition general_position (p1 p2 p3 p4 : Point2D) : Prop :=
  ~ collinear p1 p2 p3 /\ ~ collinear p1 p2 p4 /\
  ~ collinear p1 p3 p4 /\ ~ collinear p2 p3 p4.

(** Modelled from the spec: the bottom-right entry that the transform
    has before it is normalised, up to a factor that does not vanish in
    general position.  The normalisation [h33 = 1] needs it to be
    non-zero. *)
Definition normaliser (p1 p2 p3 p4 : Point2D) : num :=
  orient p1 p3 p4 * orient p1 p2 p4 * (x p2 * y p3 - x p3 * y p2)
  - orient p2 p3 p4 * orient p1 p2 p4 * (x p1 * y p3 - x p3 * y p1)
  + orient p2 p3 p4 * orient p1 p3 p4 * (x p1 * y p2 - x p2 * y p1).

Definition pt (a b : Z) : Point2D := mkPoint (of_Z a) (of_Z b).

(** All the equations have [n] coefficients. *)
Definition well_formed (n : nat) (rows : list Equation) : Prop :=
  Forall (fun r => List.length (fst r) = n) rows.

(** Modelled from the spec: the linear system of a request, eight
    equations (two per correspondence) in the eight unknowns
    [h11 h12 h13 h21 h22 h23 h31 h32]. *)
Definition system (src : list Point2D) (W H : num) : list Equation :=
  flat_map equations (combine src (corners W H)).

(** [xs] gives a value to each of the [n] unknowns and satisfies every
    equation. *)
Definition solution (n : nat) (rows : list Equation) (xs : list num) : Prop :=
  List.length xs = n /\ Forall (holds xs) rows.

(** Modelled from the spec: a system of [n] equations in [n] unknowns is
    regular (its matrix is invertible) when it has exactly one solution,
    and singular (non-invertible) otherwise. *)
Definition regular (n : nat) (rows : list Equation) : Prop :=
  exists xs, solution n rows xs /\ forall ys, solution n rows ys -> ys = xs.

Definition singular (n : nat) (rows : list Equation) : Prop :=
  ~ regular n rows.

(** The axis-aligned 400 x 300 rectangle. *)
Definition aligned : list Point2D := [pt 0 0; pt 400 0; pt 400 300; pt 0 300].

(** The sample request of contracts.md. *)
Definition skewed : list Point2D := [pt 50 80; pt 350 60; pt 380 280; pt 30 300].

(** Three of the four points on the line [y = 1]. *)
Definition three_on_a_line : list Point2D := [pt 1 1; pt 2 1; pt 3 1; pt 1 2].

(** A convex quadrilateral whose opposite sides meet at (12, 12) and
    (6, 6): its vanishing line [y = x] passes through the origin. *)
Definition vanishing_through_origin : list Point2D :=
  [pt 12 36; pt 12 24; pt 9 15; pt 8 16].

End Homography.

(** ** Sample inputs used by the examples below *)

Module Samples.

Import Geometry.

(** A 640 x 360 canvas showing a 1920 x 1080 image. *)
Definition canvas_640 : Size := mkSize (of_Z 640) (of_Z 360).
Definition image_1080p : Size := mkSize (of_Z 1920) (of_Z 1080).

(** A canvas that has not been laid out horizontally, and a 10 x 10
    image. *)
Definition canvas_flat : Size := mkSize 0%Qc (of_Z 5).
Definition image_10 : Size := mkSize (of_Z 10) (of_Z 10).

(** An image whose height is not known yet. *)
Definition image_unmeasured : Size := mkSize (of_Z 10) 0%Qc.

Definition MiB : Z := 1024 * 1024.

Definition png_9MiB : Api.File := Api.mkFile "image/png" (9 * MiB).
Definition gif_1MiB : Api.File := Api.mkFile "image/gif" (1 * MiB).
Definition jpeg_11MiB : Api.File := Api.mkFile "image/jpeg" (11 * MiB).

Import Corrector.

Definition origin_rect : DOMRect := mkRect 0%Qc 0%Qc.

Definition click (a b : Z) : MouseEvent := mkMouse (of_Z a) (of_Z b).

Definition corner (n : nat) (a b da db : Z) : CornerPoint :=
  Corner.mk (of_Z a) (of_Z b) n (of_Z da) (of_Z db).

(** An uploaded 1920 x 1080 image shown on a 640 x 360 canvas. *)
Definition loaded (points : list CornerPoint) (dragged : JsId) : World :=
  mkWorld (mkSession (Some "img-1") (Some "http://backend/api/images/img-1/original")
                     None points false false dragged canvas_640 image_1080p)
          [] [].

Definition three_points : list CornerPoint :=
  [corner 0 150 240 50 80; corner 1 1050 180 350 60; corner 2 1140 840 380 280].

Definition four_points : list CornerPoint :=
  three_points ++ [corner 3 90 900 30 300].

(** Transports: one that always fails without detail, one that always
    succeeds. *)
Definition upload_down (_ : Api.File) : Api.AxiosError + Api.UploadData :=
  inl (Api.mkAxiosError None).

Definition upload_up (_ : Api.File) : Api.AxiosError + Api.UploadData :=
  inr (Api.mkUploadData "img-2").

Definition process_up (_ : option string) (_ : list Point2D)
  : Api.AxiosError + Api.ProcessData :=
  inr (Api.mkProcessData "/api/images/img-1/processed" "2.3s").

(** Five clicks, a drag of corner 1, a resize of the window, a reset and
    one more click. *)
Definition five_clicks : list Op :=
  [AddPoint origin_rect (click 50 80); AddPoint origin_rect (click 350 60);
   AddPoint origin_rect (click 380 280); AddPoint origin_rect (click 30 300);
   AddPoint origin_rect (click 200 150)].

Definition script : list Op :=
  five_clicks
  ++ [BeginDrag (corner 1 1050 180 350 60);
      DragPoint origin_rect (click 340 70) (JsNumber 1);
      EndDrag;
      Relayout true (Some (mkImage image_1080p (mkSize (of_Z 320) (of_Z 180))));
      Reset; AddPoint origin_rect (click 10 10)].

End Samples.

(** ** The rest of the REST client: image information and download *)

Module Dom.

(** An element created by [document.createElement]; [node] is its
    identity, [href] and [download] the two attributes the client
    sets. *)
Record Element : Type := mkElement { node : nat; href : string; download : string }.

Inductive DOMException : Type :=
| TypeError
| NotFoundError.

(** The page: the children of [document.body] ([None] when the page has
    no body), the number of elements created so far, and the links that
    were clicked. *)
Record Document : Type := mkDocument {
  body : option (list Element);
  created : nat;
  clicked : list Element
}.

Definition same_node (a b : Element) : bool := (node a =? node b)%nat.

Definition is_child (e : Element) (children : list Element) : bool :=
  existsb (same_node e) children.

Definition detach (e : Element) (children : list Element) : list Element :=
  filter (fun c => negb (same_node e c)) children.

(** [document.createElement('a')]: a fresh element, not attached. *)
Definition createElement (doc : Document) : Element * Document :=
  (mkElement (created doc) EmptyString EmptyString,
   mkDocument (body doc) (S (created doc)) (clicked doc)).

(** [document.body.appendChild(e)]: a [TypeError] when [document.body] is
    [null]; an element that is already a child is moved to the end. *)
Definition appendChild (e : Element) (doc : Document)
  : option DOMException * Document :=
  match body doc with
  | None => (Some TypeError, doc)
  | Some children =>
      (None, mkDocument (Some (detach e children ++ [e])) (created doc)
                        (clicked doc))
  end.

(** [e.click()] *)
Definition click (e : Element) (doc : Document) : Document :=
  mkDocument (body doc) (created doc) (clicked doc ++ [e]).

(** [document.body.removeChild(e)]: a [NotFoundError] when [e] is not a
    child of the body. *)
Definition removeChild (e : Element) (doc : Document)
  : option DOMException * Document :=
  match body doc with
  | None => (Some TypeError, doc)
  | Some children =>
      if is_child e children
      then (None, mkDocument (Some (detach e children)) (created doc)
                             (clicked doc))
      else (Some NotFoundError, doc)
  end.

(** Every element of the page was created by [createElement]. *)
Definition well_formed (doc : Document) : Prop :=
  forall children e, body doc = Some children -> In e children ->
                     (node e < created doc)%nat.

End Dom.

Module Client.

Import Api.

Section Transport.

Variable BACKEND_URL : string.
Variable Info : Type.
Variable axios_get : string -> AxiosError + Info.

(** [getImageInfo]: the URL fetched, and the value returned or the error
    thrown. *)
Definition getImageInfo (imageId : string) : list string * (Error + Info) :=
  let url := (API BACKEND_URL ++ "/images/" ++ imageId ++ "/info")%string in
  ([url],
   match axios_get url with
   | inr data => inr data
   | inl error =>
       inl (mkError (or_default (detail error) "Failed to get image information"))
   end).

(** [downloadImage]: the page after the call, and the exception that
    ended it, if any. *)
Definition downloadImage (imageId : string) (doc : Dom.Document)
  : option Dom.DOMException * Dom.Document :=
  let downloadUrl := (API BACKEND_URL ++ "/images/" ++ imageId ++ "/download")%string in
  let (created, doc1) := Dom.createElement doc in
  let link :=
    Dom.mkElement (Dom.node created) downloadUrl
                  ("corrected-image-" ++ imageId ++ ".png")%string in
  match Dom.appendChild link doc1 with
  | (Some e, doc2) => (Some e, doc2)
  | (None, doc2) => Dom.removeChild link (Dom.click link doc2)
  end.

End Transport.

End Client.

(** ** What the three requests throw, whatever [detail] the server sends

    [error.response?.data?.detail] is whatever [JSON.parse] found under
    the key [detail] of the response body: a string for the errors the
    backend raises itself, an array of objects for a request that fails
    validation, and [undefined] when there is no response, no body or no
    such key.  [Api.AxiosError] covers the absent and the string
    details; this module covers all of them. *)

From Stdlib Require DecimalString.

Module Wire.

(** What [throw new Error(...)] ends with: the [Error], or the
    [TypeError] raised while its argument is converted to a string. *)
Inductive Thrown : Type :=
| ThrowError (e : Api.Error)
| ThrowTypeError.

Fixpoint all_some {A : Type} (l : list (option A)) : option (list A) :=
  match l with
  | [] => Some []
  | Some a :: rest =>
      match all_some rest with
      | Some r => Some (a :: r)
      | None => None
      end
  | None :: _ => None
  end.

Section Values.

(** The numbers of JavaScript: which of them are truthy (all but [0] and
    [-0], among those JSON can denote) and [Number.prototype.toString]. *)
Variable Number : Type.
Variable number_truthy : Number -> bool.
Variable number_to_string : Number -> string.

(** A value built by [JSON.parse]. *)
#[local] Set Warnings "-register-all".
Inductive Json : Type :=
| JsonNull
| JsonBool (b : bool)
| JsonNumber (n : Number)
| JsonString (s : string)
| JsonArray (items : list Json)
| JsonObject (members : list (string * Json)).

(** The left operand of [||] decides: [null], [false], [0] and the empty
    string are falsy, every array and every object is truthy. *)
Definition ToBoolean (v : Json) : bool :=
  match v with
  | JsonNull => false
  | JsonBool b => b
  | JsonNumber n => number_truthy n
  | JsonString EmptyString => false
  | JsonString (String _ _) => true
  | JsonArray _ => true
  | JsonObject _ => true
  end.

Definition has_own (key : string) (members : list (string * Json)) : bool :=
  existsb (fun m => String.eqb (fst m) key) members.

(** The conversion [new Error] applies to its argument.  An array is
    joined with commas, [null] elements counting as empty
    ([Array.prototype.join]); an object is ["[object Object]"]
    ([Object.prototype.toString]), unless it has a member [toString] of
    its own, which is never callable: then the conversion raises a
    [TypeError] ([None]). *)
Fixpoint ToString (v : Json) : option string :=
  match v with
  | JsonNull => Some "null"
  | JsonBool true => Some "true"
  | JsonBool false => Some "false"
  | JsonNumber n => Some (number_to_string n)
  | JsonString s => Some s
  | JsonArray items =>
      option_map (String.concat ",")
                 (all_some (map (fun item =>
                                   match item with
                                   | JsonNull => Some EmptyString
                                   | _ => ToString item
                                   end) items))
  | JsonObject members =>
      if has_own "toString" members then None else Some "[object Object]"
  end.

(** [new Error(detail || fallback)] *)
Definition new_Error (detail : option Json) (fallback : string) : Thrown :=
  match detail with
  | Some v =>
      if ToBoolean v then
        match ToString v with
        | Some s => ThrowError (Api.mkError s)
        | None => ThrowTypeError
        end
      else ThrowError (Api.mkError fallback)
  | None => ThrowError (Api.mkError fallback)
  end.

(** What axios rejects with: [error.response?.data?.detail], absent
    ([None]) or any value. *)
Record AxiosError : Type := mkAxiosError { detail : option Json }.

(** A string or absent detail, as [Api.AxiosError] has it. *)
Definition widen (error : Api.AxiosError) : AxiosError :=
  mkAxiosError (option_map JsonString (Api.detail error)).

Definition widened {A B : Type} (axios : A -> Api.AxiosError + B) (a : A)
  : AxiosError + B :=
  match axios a with
  | inl error => inl (widen error)
  | inr data => inr data
  end.

Variable BACKEND_URL : string.
Variable Info : Type.
Variable axios_post_upload : Api.File -> AxiosError + Api.UploadData.
Variable axios_post_process :
  option string -> list Geometry.Point2D -> AxiosError + Api.ProcessData.
Variable axios_get : string -> AxiosError + Info.

(** [uploadImage]: the request sent, and the value returned or the
    value thrown. *)
Definition uploadImage (file : Api.File)
  : list Api.Request * (Thrown + Api.UploadData) :=
  ([Api.PostUploadImage file],
   match axios_post_upload file with
   | inr data => inr data
   | inl error => inl (new_Error (detail error) "Failed to upload image")
   end).

Definition processImage (imageId : option string)
           (cornerPoints : list Geometry.Point2D)
  : list Api.Request * (Thrown + Api.ProcessData) :=
  ([Api.PostProcessImage imageId cornerPoints],
   match axios_post_process imageId cornerPoints with
   | inr data => inr data
   | inl error => inl (new_Error (detail error) "Failed to process image")
   end).

Definition getImageInfo (imageId : string) : list string * (Thrown + Info) :=
  let url := (Api.API BACKEND_URL ++ "/images/" ++ imageId ++ "/info")%string in
  ([url],
   match axios_get url with
   | inr data => inr data
   | inl error =>
       inl (new_Error (detail error) "Failed to get image information")
   end).

End Values.

Arguments JsonNull {Number}.
Arguments JsonBool {Number} b.
Arguments JsonNumber {Number} n.
Arguments JsonString {Number} s.
Arguments JsonArray {Number} items.
Arguments JsonObject {Number} members.
Arguments ToBoolean {Number} number_truthy v.
Arguments has_own {Number} key members.
Arguments ToString {Number} number_to_string v.
Arguments new_Error {Number} number_truthy number_to_string detail fallback.
Arguments mkAxiosError {Number} detail.
Arguments detail {Number} a.
Arguments widen {Number} error.
Arguments widened {Number A B} axios a.
Arguments uploadImage {Number} number_truthy number_to_string
  axios_post_upload file.
Arguments processImage {Number} number_truthy number_to_string
  axios_post_process imageId cornerPoints.
Arguments getImageInfo {Number} number_truthy number_to_string
  BACKEND_URL {Info} axios_get imageId.

(** Integers as numbers, written in decimal. *)
Definition nonzero (n : Z) : bool := negb (n =? 0)%Z.

Definition decimal (n : Z) : string :=
  DecimalString.NilZero.string_of_int (Z.to_int n).

(** The detail of a 422 answer: one validation error. *)
Definition field_required : Json Z :=
  JsonArray
    [JsonObject [("type", JsonString "missing");
                 ("loc", JsonArray [JsonString "body"; JsonString "file"]);
                 ("msg", JsonString "Field required");
                 ("input", JsonNull)]].

(** A transport that always answers 422. *)
Definition upload_unprocessable (_ : Api.File)
  : AxiosError Z + Api.UploadData :=
  inl (mkAxiosError (Some field_required)).

End Wire.

(** ** The rest of the component: download, rendering, the two halves of
    an asynchronous correction *)

Module View.

Import Geometry Corrector.

Definition download_started : Toast :=
  mkToast "Download started!" "Your corrected image is being downloaded" None.

Definition download_failed : Toast :=
  mkToast "Download failed" "There was an error downloading the image"
          (Some "destructive").

(** [handleDownload]: the page after the call and the actions queued. *)
Definition handleDownload (BACKEND_URL : string) (doc : Dom.Document)
           (s : Session) : Dom.Document * list Action :=
  match imageId s with
  | Some (String c rest) =>
      match Client.downloadImage BACKEND_URL (String c rest) doc with
      | (None, doc') => (doc', [Notify download_started])
      | (Some _, doc') => (doc', [Notify download_failed])
      end
  | _ => (doc, [])
  end.

(** A dashed [line] of the overlay, in display coordinates. *)
Record Line : Type := mkLine { x1 : num; y1 : num; x2 : num; y2 : num }.

(** [Array.prototype.map] with the index passed to the callback. *)
Definition mapi {A B : Type} (f : A -> nat -> B) (l : list A) : list B :=
  map (fun ip => f (snd ip) (fst ip)) (combine (seq 0 (List.length l)) l).

(** The callback that draws the line leaving [point]; [None] is the
    [null] that React does not render. *)
Definition connectingLine (cornerPoints : list CornerPoint)
           (point : CornerPoint) (index : nat) : option Line :=
  let nextPoint :=
    match nth_error cornerPoints (index + 1) with
    | Some next => next
    | None => nth 0 cornerPoints point
    end in
  if (index =? List.length cornerPoints - 1)%nat
     && (List.length cornerPoints <? 4)%nat
  then None
  else Some {| x1 := Corner.displayX point;
               y1 := Corner.displayY point;
               x2 := Corner.displayX nextPoint;
               y2 := Corner.displayY nextPoint |}.

Definition rendered {A : Type} (o : option A) : list A :=
  match o with
  | Some a => [a]
  | None => []
  end.

(** The lines of the [svg] overlay. *)
Definition connectingLines (cornerPoints : list CornerPoint) : list Line :=
  if (1 <? List.length cornerPoints)%nat
  then flat_map rendered (mapi (connectingLine cornerPoints) cornerPoints)
  else [].

(** The line from one point to another. *)
Definition segment (a b : CornerPoint) : Line :=
  {| x1 := Corner.displayX a; y1 := Corner.displayY a;
     x2 := Corner.displayX b; y2 := Corner.displayY b |}.

(** [disabled] of the Correct Distortion button. *)
Definition correctDisabled (s : Session) : bool :=
  negb (List.length (cornerPoints s) =? 4)%nat || isProcessing s.

(** [processImageDistortion] up to its [await]: the guard, the busy flag
    and the request. *)
Definition processBegin (s : Session) : list Action :=
  if negb (List.length (cornerPoints s) =? 4)%nat
  then [Notify incomplete_selection]
  else
    let apiCornerPoints :=
      map (fun point => {| x := Corner.x point; y := Corner.y point |})
          (cornerPoints s) in
    [Upd (setIsProcessing true);
     Send (Api.PostProcessImage (imageId s) apiCornerPoints)].

(** [processImageDistortion] after its [await]: the outcome is stored or
    reported, then the busy flag is cleared. *)
Definition processSettle (outcome : Api.Error + Api.ProcessData) : list Action :=
  match outcome with
  | inl error => [Notify (processing_failed error)]
  | inr result =>
      [Upd (setProcessedImageUrl (Some (Api.processed_image_url result)));
       Notify (processing_succeeded result)]
  end
  ++ [Upd (setIsProcessing false)].

(** What the user can do while a correction may be outstanding: the
    pointer and reset events of the state machine, and a press of the
    Correct Distortion button, which does nothing when disabled. *)
Inductive Gesture : Type :=
| Pointer (op : Op)
| PressCorrect.

Definition gesture (w : World) (g : Gesture) : World :=
  match g with
  | Pointer op => step w op
  | PressCorrect =>
      if correctDisabled (session w) then w else dispatch processBegin w
  end.

Definition gestures (gs : list Gesture) (w : World) : World :=
  fold_left gesture gs w.

(** The display shadow of a point agrees with its image coordinates. *)
Definition synced (s : Session) (p : CornerPoint) : Prop :=
  Corner.displayX p
  = x (convertToCanvasCoordinates (canvasSize s) (imageSize s)
                                  (Corner.x p) (Corner.y p)) /\
  Corner.displayY p
  = y (convertToCanvasCoordinates (canvasSize s) (imageSize s)
                                  (Corner.x p) (Corner.y p)).

(** Canvas and image are measured. *)
Definition laid_out (s : Session) : Prop :=
  (0 < width (canvasSize s))%Qc /\ (0 < height (canvasSize s))%Qc /\
  (0 < width (imageSize s))%Qc /\ (0 < height (imageSize s))%Qc.

(** A resize to a visible size, or any other event. *)
Definition visible (op : Op) : Prop :=
  match op with
  | Relayout true (Some img) =>
      (0 < width (bounding img))%Qc /\ (0 < height (bounding img))%Qc
  | _ => True
  end.

(** The canvas and the image are measured and every display shadow
    agrees with its image coordinates. *)
Definition in_sync (w : World) : Prop :=
  laid_out (session w) /\ Forall (synced (session w)) (cornerPoints (session w)).

(** The point that an accepted click stores as the [k]-th one. *)
Definition placed (canvasSize imageSize : Size) (k : nat)
           (click : DOMRect * MouseEvent) : CornerPoint :=
  let canvasX := (clientX (snd click) - left (fst click))%Qc in
  let canvasY := (clientY (snd click) - top (fst click))%Qc in
  let imageCoords := convertToImageCoordinates canvasSize imageSize canvasX canvasY in
  Corner.mk (x imageCoords) (y imageCoords) k canvasX canvasY.

(** A series of clicks on the canvas. *)
Definition clicks (events : list (DOMRect * MouseEvent)) : list Op :=
  map (fun click => AddPoint (fst click) (snd click)) events.

End View.

(** ** The first version of the component, before the backend existed

    It keeps the picture as a data URL, stores canvas coordinates as they
    are and filters uploads by MIME type alone.  Its handlers are given
    as functions of the state they run on, returning the state after the
    queued updates and the toasts emitted. *)

Module Legacy.

Module Point.
Record CornerPoint : Type := mk { x : num; y : num; id : nat }.
End Point.

Record Session : Type := mkSession {
  originalImage : option string;
  correctedImage : option string;
  cornerPoints : list Point.CornerPoint;
  isProcessing : bool;
  draggedPoint : JsId
}.

Definition invalid_file_type : Corrector.Toast :=
  Corrector.mkToast "Invalid file type" "Please upload a JPEG or PNG image"
                    (Some "destructive").

(** [handleImageUpload]; [readAsDataURL] is the data URL that the
    [FileReader] hands to [onload]. *)
Definition handleImageUpload (readAsDataURL : Api.File -> string)
           (file : option Api.File) (s : Session)
  : Session * list Corrector.Toast :=
  match file with
  | Some file =>
      if String.eqb (Api.type file) "image/jpeg"
         || String.eqb (Api.type file) "image/png"
      then (mkSession (Some (readAsDataURL file)) None [] (isProcessing s)
                      (draggedPoint s),
            [Corrector.upload_succeeded])
      else (s, [invalid_file_type])
  | None => (s, [invalid_file_type])
  end.

Definition handleCanvasClick (rect : Corrector.DOMRect)
           (event : Corrector.MouseEvent) (s : Session)
  : Session * list Corrector.Toast :=
  if negb (truthy (originalImage s)) || (4 <=? List.length (cornerPoints s))%nat
  then (s, [])
  else
    let x := (Corrector.clientX event - Corrector.left rect)%Qc in
    let y := (Corrector.clientY event - Corrector.top rect)%Qc in
    let newPoint := Point.mk x y (List.length (cornerPoints s)) in
    (mkSession (originalImage s) (correctedImage s)
               (cornerPoints s ++ [newPoint]) (isProcessing s) (draggedPoint s),
     if (List.length (cornerPoints s) =? 3)%nat
     then [Corrector.all_corners_selected]
     else []).

Definition handlePointDrag (rect : Corrector.DOMRect)
           (event : Corrector.MouseEvent) (pointId : JsId) (s : Session)
  : Session * list Corrector.Toast :=
  if negb (strict_eq (draggedPoint s) pointId) then (s, [])
  else
    let x := (Corrector.clientX event - Corrector.left rect)%Qc in
    let y := (Corrector.clientY event - Corrector.top rect)%Qc in
    (mkSession (originalImage s) (correctedImage s)
               (map (fun point =>
                       if strict_eq (JsNumber (Point.id point)) pointId
                       then Point.mk x y (Point.id point)
                       else point) (cornerPoints s))
               (isProcessing s) (draggedPoint s),
     []).

Definition resetSelection (s : Session) : Session * list Corrector.Toast :=
  (mkSession (originalImage s) None [] (isProcessing s) (draggedPoint s),
   [Corrector.selection_reset]).

Definition setDraggedPoint (v : JsId) (s : Session) : Session :=
  mkSession (originalImage s) (correctedImage s) (cornerPoints s)
            (isProcessing s) v.

(** The pointer events of the state machine, on the first version. *)
Definition step (sl : Session * list Corrector.Toast) (op : Corrector.Op)
  : Session * list Corrector.Toast :=
  let (s, log) := sl in
  let (s', emitted) :=
    match op with
    | Corrector.AddPoint rect event => handleCanvasClick rect event s
    | Corrector.DragPoint rect event pointId =>
        handlePointDrag rect event pointId s
    | Corrector.Reset => resetSelection s
    | Corrector.BeginDrag point =>
        (setDraggedPoint (JsNumber (Corrector.Corner.id point)) s, [])
    | Corrector.EndDrag => (setDraggedPoint JsNull s, [])
    | Corrector.Relayout _ _ => (s, [])
    end in
  (s', log ++ emitted).

Definition steps (ops : list Corrector.Op) (sl : Session * list Corrector.Toast)
  : Session * list Corrector.Toast :=
  fold_left step ops sl.

(** What the first version stores of a point of the current one. *)
Definition forget (p : Corrector.CornerPoint) : Point.CornerPoint :=
  Point.mk (Corrector.Corner.x p) (Corrector.Corner.y p) (Corrector.Corner.id p).

(** The current component on a canvas that shows the image unscaled (or
    is not measured yet) corresponds to the first version. *)
Definition corresponds (w : Corrector.World) (sl : Session * list Corrector.Toast)
  : Prop :=
  map forget (Corrector.cornerPoints (Corrector.session w)) = cornerPoints (fst sl)
  /\ truthy (Corrector.originalImageUrl (Corrector.session w))
     = truthy (originalImage (fst sl))
  /\ Corrector.draggedPoint (Corrector.session w) = draggedPoint (fst sl)
  /\ Corrector.toasts w = snd sl.

Definition unscaled (s : Corrector.Session) : Prop :=
  forall a b,
    Geometry.convertToImageCoordinates (Corrector.canvasSize s)
                                       (Corrector.imageSize s) a b
    = Geometry.mkPoint a b.

Definition pointer_only (op : Corrector.Op) : Prop :=
  match op with
  | Corrector.Relayout _ _ => False
  | _ => True
  end.

End Legacy.

(** * Properties *)

(** ** Arithmetic helpers *)

Lemma is_zero_true (a : num) : is_zero a = true <-> a = 0%Qc.
Proof.
  unfold is_zero, Qc_eq_bool.
  destruct (Qc_eq_dec a 0%Qc) as [E | E]; split; intro H;
    congruence || reflexivity.
Qed.

Lemma is_zero_false (a : num) : is_zero a = false <-> a <> 0%Qc.
Proof.
  rewrite <- is_zero_true. destruct (is_zero a); split; congruence.
Qed.

Lemma positive_nonzero (a : num) : (0 < a)%Qc -> a <> 0%Qc.
Proof.
  intros H E. subst a. exact (Qclt_not_eq _ _ H eq_refl).
Qed.

Lemma Qcleb_false (a b : num) : Qcleb a b = false <-> (b < a)%Qc.
Proof.
  unfold Qcleb. split; intro H.
  - destruct (a ?= b)%Qc eqn:E; try discriminate H.
    exact (proj2 (Qcgt_alt a b) E).
  - now rewrite (proj1 (Qcgt_alt a b) H).
Qed.

(** Closed goals on rationals: compare the underlying fractions. *)
Ltac qc_closed :=
  match goal with
  | |- @eq Qc _ _ => apply Qc_is_canon; vm_compute; reflexivity
  | |- @eq num _ _ => apply Qc_is_canon; vm_compute; reflexivity
  | |- _ <> _ =>
      let H := fresh in
      intro H; apply (f_equal this) in H; vm_compute in H; discriminate H
  | |- (_ < _)%Qc => vm_compute; reflexivity
  end.

(** ** Coordinate mapper *)

Module GeometryFacts.

Import Geometry.
Local Open Scope Qc_scope.

Lemma to_image_scaled (d i : Size) (px py : num) :
  width d <> 0 -> height d <> 0 ->
  convertToImageCoordinates d i px py =
  {| x := px * (width i / width d); y := py * (height i / height d) |}.
Proof.
  intros Hw Hh. unfold convertToImageCoordinates.
  apply is_zero_false in Hw. apply is_zero_false in Hh.
  now rewrite Hw, Hh.
Qed.

Lemma to_canvas_scaled (d i : Size) (px py : num) :
  width i <> 0 -> height i <> 0 ->
  convertToCanvasCoordinates d i px py =
  {| x := px * (width d / width i); y := py * (height d / height i) |}.
Proof.
  intros Hw Hh. unfold convertToCanvasCoordinates.
  apply is_zero_false in Hw. apply is_zero_false in Hh.
  now rewrite Hw, Hh.
Qed.

(** C2. Round trip: with strictly positive display and image
    dimensions, mapping a display point to image space and back to
    display space returns the point, exactly, in rational arithmetic. *)
Theorem C2_round_trip (p : Point2D) (d i : Size) :
  0 < width d -> 0 < height d -> 0 < width i -> 0 < height i ->
  let q := convertToImageCoordinates d i (x p) (y p) in
  convertToCanvasCoordinates d i (x q) (y q) = p.
Proof.
  intros Hdw Hdh Hiw Hih q. subst q.
  apply positive_nonzero in Hdw, Hdh, Hiw, Hih.
  rewrite to_image_scaled by assumption.
  rewrite to_canvas_scaled by assumption.
  destruct p as [px py]; simpl. f_equal; field; auto.
Qed.

Lemma C2_round_trip_witness :
  convertToImageCoordinates Samples.canvas_640 Samples.image_1080p
                            (of_Z 120) (of_Z 45)
  = mkPoint (of_Z 360) (of_Z 135) /\
  convertToCanvasCoordinates Samples.canvas_640 Samples.image_1080p
                             (of_Z 360) (of_Z 135)
  = mkPoint (of_Z 120) (of_Z 45).
Proof.
  assert (E : convertToImageCoordinates Samples.canvas_640 Samples.image_1080p
                                        (of_Z 120) (of_Z 45)
              = mkPoint (of_Z 360) (of_Z 135)).
  { unfold convertToImageCoordinates.
    replace (is_zero (width Samples.canvas_640)
             || is_zero (height Samples.canvas_640)) with false
      by (vm_compute; reflexivity).
    f_equal; qc_closed. }
  split; [exact E |].
  pose proof (C2_round_trip (mkPoint (of_Z 120) (of_Z 45))
                            Samples.canvas_640 Samples.image_1080p) as R.
  cbn zeta beta iota delta [x y] in R. rewrite E in R.
  cbn iota beta delta [x y] in R.
  apply R; qc_closed.
Defined.

(** The other direction of the round trip, image to display to image. *)
Lemma round_trip_image (p : Point2D) (d i : Size) :
  width d <> 0 -> height d <> 0 -> width i <> 0 -> height i <> 0 ->
  let q := convertToCanvasCoordinates d i (x p) (y p) in
  convertToImageCoordinates d i (x q) (y q) = p.
Proof.
  intros Hdw Hdh Hiw Hih q. subst q.
  rewrite to_canvas_scaled by assumption.
  rewrite to_image_scaled by assumption.
  destruct p as [px py]; simpl. f_equal; field; auto.
Qed.

(** C3, as the spec states it, fails for the image-to-display direction:
    with a canvas of width 0 and a 10 x 10 image,
    [convertToCanvasCoordinates] sends (1, 1) to (0, 1/2). *)
Lemma C3_counterexample :
  width Samples.canvas_flat = 0 /\
  convertToCanvasCoordinates Samples.canvas_flat Samples.image_10 1 1
  = mkPoint 0 (Q2Qc (1 # 2)) /\
  convertToCanvasCoordinates Samples.canvas_flat Samples.image_10 1 1
  <> mkPoint 1 1.
Proof.
  assert (E : convertToCanvasCoordinates Samples.canvas_flat Samples.image_10 1 1
              = mkPoint 0 (Q2Qc (1 # 2))).
  { unfold convertToCanvasCoordinates.
    replace (is_zero (width Samples.image_10)
             || is_zero (height Samples.image_10)) with false
      by (vm_compute; reflexivity).
    f_equal; qc_closed. }
  split; [reflexivity | split; [exact E |]].
  rewrite E. intro H. apply (f_equal x) in H. simpl in H.
  apply (f_equal this) in H. discriminate H.
Qed.

(** C3, amended.  Each conversion returns its input unchanged when one of
    the dimensions it divides by is zero: the display size for
    [convertToImageCoordinates] (whatever the image size), the image
    size for [convertToCanvasCoordinates] (whatever the display
    size). *)
Theorem C3_zero_guard (d i : Size) (px py : num) :
  (width d = 0 \/ height d = 0 ->
   convertToImageCoordinates d i px py = mkPoint px py) /\
  (width i = 0 \/ height i = 0 ->
   convertToCanvasCoordinates d i px py = mkPoint px py).
Proof.
  split; intros H.
  - unfold convertToImageCoordinates.
    replace (is_zero (width d) || is_zero (height d)) with true; [reflexivity |].
    symmetry. apply orb_true_iff.
    destruct H as [H | H]; [left | right]; now apply is_zero_true.
  - unfold convertToCanvasCoordinates.
    replace (is_zero (width i) || is_zero (height i)) with true; [reflexivity |].
    symmetry. apply orb_true_iff.
    destruct H as [H | H]; [left | right]; now apply is_zero_true.
Qed.

Lemma C3_zero_guard_witness :
  convertToImageCoordinates Samples.canvas_flat Samples.image_unmeasured
                            (of_Z 7) (of_Z 9)
  = mkPoint (of_Z 7) (of_Z 9) /\
  convertToCanvasCoordinates Samples.canvas_flat Samples.image_unmeasured
                             (of_Z 7) (of_Z 9)
  = mkPoint (of_Z 7) (of_Z 9).
Proof.
  destruct (C3_zero_guard Samples.canvas_flat Samples.image_unmeasured
                          (of_Z 7) (of_Z 9)) as [A B].
  split; [apply A; left; reflexivity | apply B; right; reflexivity].
Defined.

End GeometryFacts.

(** ** File validation *)

Module ApiFacts.

Import Api.

Lemma includes_validTypes (file : File) :
  includes validTypes (type file) = true <-> valid_type file.
Proof.
  unfold includes, validTypes, valid_type. cbn [existsb].
  rewrite !orb_true_iff, !String.eqb_eq.
  intuition discriminate.
Qed.

Lemma valid_type_dec (file : File) : {valid_type file} + {~ valid_type file}.
Proof.
  destruct (includes validTypes (type file)) eqn:E.
  - left. now apply includes_validTypes.
  - right. intro H. apply includes_validTypes in H. congruence.
Qed.

Lemma validate_invalid (file : File) :
  ~ valid_type file -> validateImageFile file = inl invalid_format.
Proof.
  intro H. unfold validateImageFile.
  destruct (includes validTypes (type file)) eqn:E; [| reflexivity].
  apply includes_validTypes in E. contradiction.
Qed.

Lemma validate_valid (file : File) :
  valid_type file ->
  validateImageFile file =
  if (size file >? maxSize)%Z then inl too_large else inr true.
Proof.
  intro H. unfold validateImageFile.
  apply includes_validTypes in H. now rewrite H.
Qed.

Lemma mock_agrees (file : File) :
  Mock.validateImageFormat file = validateImageFile file.
Proof. reflexivity. Qed.

(** C6. [validateImageFile] throws the invalid-format error exactly
    when the MIME type is none of image/jpeg, image/jpg, image/png; for
    a valid type it throws the too-large error exactly when the size
    exceeds 10,485,760 bytes; otherwise it returns [true].  A 9 MiB
    image/png passes, an image/gif is rejected whatever its size, an
    11 MiB file is rejected whatever its type.  [validateImageFormat]
    of the mock utilities behaves identically. *)
Theorem C6_validate_image_file (file : File) :
  (validateImageFile file = inl invalid_format <-> ~ valid_type file) /\
  (valid_type file ->
   (validateImageFile file = inl too_large <-> (size file > 10485760)%Z)) /\
  (valid_type file -> (size file <= 10485760)%Z ->
   validateImageFile file = inr true) /\
  (type file = "image/png" -> size file = (9 * 1024 * 1024)%Z ->
   validateImageFile file = inr true) /\
  (type file = "image/gif" -> validateImageFile file = inl invalid_format) /\
  (size file = (11 * 1024 * 1024)%Z ->
   exists error, validateImageFile file = inl error) /\
  Mock.validateImageFormat file = validateImageFile file.
Proof.
  assert (Hmax : maxSize = 10485760%Z) by reflexivity.
  split; [| split; [| split; [| split; [| split; [| split]]]]].
  - split.
    + intros E V. rewrite (validate_valid _ V) in E.
      destruct (size file >? maxSize)%Z; discriminate E.
    + apply validate_invalid.
  - intros V. rewrite (validate_valid _ V), Hmax.
    destruct (Z.gtb_spec (size file) 10485760) as [G | G]; split; intro E;
      try reflexivity; try lia; discriminate E.
  - intros V Hs. rewrite (validate_valid _ V), Hmax.
    destruct (Z.gtb_spec (size file) 10485760); [lia | reflexivity].
  - intros Ht Hs. rewrite validate_valid by (right; right; exact Ht).
    rewrite Hs. reflexivity.
  - intros Ht. apply validate_invalid. unfold valid_type. rewrite Ht.
    intros [H | [H | H]]; discriminate H.
  - intros Hs. destruct (valid_type_dec file) as [V | V].
    + exists too_large. rewrite (validate_valid _ V), Hs. reflexivity.
    + exists invalid_format. now apply validate_invalid.
  - apply mock_agrees.
Qed.

Lemma C6_validate_image_file_witness :
  validateImageFile Samples.png_9MiB = inr true /\
  validateImageFile Samples.gif_1MiB = inl invalid_format /\
  validateImageFile Samples.jpeg_11MiB = inl too_large.
Proof.
  split; [| split].
  - apply (C6_validate_image_file Samples.png_9MiB); reflexivity.
  - apply (C6_validate_image_file Samples.gif_1MiB); reflexivity.
  - destruct (C6_validate_image_file Samples.jpeg_11MiB) as (_ & H & _).
    apply H; [left; reflexivity | reflexivity].
Defined.

End ApiFacts.

(** ** Corner-set state machine *)

Module CorrectorFacts.

Import Geometry Corrector.
Local Open Scope nat_scope.

(** *** What each handler does to the world *)

Lemma click_ignored rect event w :
  truthy (originalImageUrl (session w)) = false \/ 4 <= count w ->
  step w (AddPoint rect event) = w.
Proof.
  intros H. unfold step, dispatch, handler_of, handleCanvasClick.
  replace (negb (truthy (originalImageUrl (session w)))
           || (4 <=? List.length (cornerPoints (session w)))) with true;
    [reflexivity |].
  symmetry. apply orb_true_iff. destruct H as [H | H].
  - left. now rewrite H.
  - right. now apply Nat.leb_le.
Qed.

Lemma click_accepted rect event w :
  truthy (originalImageUrl (session w)) = true -> count w < 4 ->
  let canvasX := (clientX event - left rect)%Qc in
  let canvasY := (clientY event - top rect)%Qc in
  let imageCoords :=
    convertToImageCoordinates (canvasSize (session w)) (imageSize (session w))
                              canvasX canvasY in
  let newPoint :=
    Corner.mk (x imageCoords) (y imageCoords) (count w) canvasX canvasY in
  step w (AddPoint rect event) =
  mkWorld (commit (setCornerPoints (fun prev => prev ++ [newPoint])) (session w))
          (toasts w ++ if count w =? 3 then [all_corners_selected] else [])
          (requests w).
Proof.
  intros Hu Hc. unfold step, dispatch, handler_of, handleCanvasClick, count in *.
  rewrite Hu. replace (4 <=? List.length (cornerPoints (session w))) with false
    by (symmetry; apply Nat.leb_gt; exact Hc).
  cbn [negb orb].
  destruct (List.length (cornerPoints (session w)) =? 3); cbn.
  - reflexivity.
  - now rewrite app_nil_r.
Qed.

Lemma click_cases w :
  (truthy (originalImageUrl (session w)) = false \/ 4 <= count w)
  \/ (truthy (originalImageUrl (session w)) = true /\ count w < 4).
Proof.
  destruct (truthy (originalImageUrl (session w))); [| left; left; reflexivity].
  destruct (Nat.lt_ge_cases (count w) 4); [right | left; right]; auto.
Qed.

Lemma drag_ignored rect event pointId w :
  strict_eq (draggedPoint (session w)) pointId = false ->
  step w (DragPoint rect event pointId) = w.
Proof.
  intros H. unfold step, dispatch, handler_of, handlePointDrag.
  now rewrite H.
Qed.

Lemma drag_accepted rect event pointId w :
  strict_eq (draggedPoint (session w)) pointId = true ->
  let canvasX := (clientX event - left rect)%Qc in
  let canvasY := (clientY event - top rect)%Qc in
  let imageCoords :=
    convertToImageCoordinates (canvasSize (session w)) (imageSize (session w))
                              canvasX canvasY in
  let move point :=
    if strict_eq (JsNumber (Corner.id point)) pointId
    then Corner.mk (x imageCoords) (y imageCoords) (Corner.id point)
                   canvasX canvasY
    else point in
  step w (DragPoint rect event pointId) =
  mkWorld (commit (setCornerPoints (map move)) (session w))
          (toasts w) (requests w).
Proof.
  intros H. unfold step, dispatch, handler_of, handlePointDrag.
  now rewrite H.
Qed.

Lemma strict_eq_true a b : strict_eq a b = true <-> a = b.
Proof.
  destruct a, b; simpl; split; intro H;
    try reflexivity; try discriminate H.
  - apply Nat.eqb_eq in H. now subst.
  - inversion H. apply Nat.eqb_refl.
Qed.

Lemma strict_eq_false a b : strict_eq a b = false <-> a <> b.
Proof.
  rewrite <- strict_eq_true. destruct (strict_eq a b); split; congruence.
Qed.

(** *** The invariant *)

Lemma invariant_empty w : cornerPoints (session w) = [] -> invariant w.
Proof.
  intro H. unfold invariant, count, ids. rewrite H. simpl. split; [lia | reflexivity].
Qed.

Lemma invariant_step w op : invariant w -> invariant (step w op).
Proof.
  intros [Hc Hi].
  destruct op as [rect event | rect event pointId | | point | | canvas img].
  - destruct (click_cases w) as [H | [Hu Hlt]].
    + rewrite click_ignored by exact H. now split.
    + rewrite click_accepted by assumption.
      unfold invariant, count, ids in *. cbn.
      rewrite length_app, map_app, Hi. cbn.
      rewrite Nat.add_1_r, seq_S. split; [lia | reflexivity].
  - destruct (strict_eq (draggedPoint (session w)) pointId) eqn:E.
    + rewrite drag_accepted by exact E.
      unfold invariant, count, ids in *. cbn [session commit cornerPoints].
      rewrite length_map, map_map.
      split; [exact Hc |]. rewrite <- Hi.
      apply map_ext. intros p.
      now destruct (strict_eq (JsNumber (Corner.id p)) pointId).
    + rewrite drag_ignored by exact E. now split.
  - unfold invariant, count, ids. cbn. split; [lia | reflexivity].
  - now split.
  - now split.
  - destruct canvas, img as [img |]; try (now split).
    unfold step, dispatch, handler_of, updateCanvasSize, displayCoordinatesEffect.
    cbn [run fold_left perform session commit cornerPoints canvasSize].
    destruct (_ && _); [| now split].
    unfold invariant, count, ids in *.
    cbn [run fold_left perform session commit cornerPoints].
    rewrite length_map, map_map. split; [exact Hc | exact Hi].
Qed.

Lemma invariant_steps ops : forall w, invariant w -> invariant (steps ops w).
Proof.
  induction ops as [| op ops IH]; intros w H; [exact H |].
  apply (IH (step w op)). now apply invariant_step.
Qed.

(** C1. Corner-set invariant: along every sequence of clicks, drags and
    resets (and of the begin-drag, release and relayout events) that
    starts from an empty corner set, the number of corner points stays
    within 0..4 and the stored ids are exactly 0, ..., count-1, in
    insertion order. *)
Theorem C1_corner_set_invariant (ops : list Op) (w0 : World) :
  cornerPoints (session w0) = [] ->
  let w := steps ops w0 in
  0 <= count w <= 4 /\ ids w = seq 0 (count w).
Proof.
  intros H w.
  destruct (invariant_steps ops w0 (invariant_empty w0 H)) as [Hc Hi].
  fold w in Hc, Hi. repeat split; [lia | exact Hc | exact Hi].
Qed.

Lemma C1_corner_set_invariant_witness :
  cornerPoints (session (Samples.loaded [] JsNull)) = [] /\
  ids (steps Samples.five_clicks (Samples.loaded [] JsNull)) = [0; 1; 2; 3] /\
  (0 <= count (steps Samples.script (Samples.loaded [] JsNull)) <= 4 /\
   ids (steps Samples.script (Samples.loaded [] JsNull))
   = seq 0 (count (steps Samples.script (Samples.loaded [] JsNull)))).
Proof.
  split; [reflexivity | split; [vm_compute; reflexivity |]].
  apply (C1_corner_set_invariant Samples.script (Samples.loaded [] JsNull)).
  reflexivity.
Defined.

(** C7. A click is ignored, leaving the whole state as it was, when
    four points are already present or when no image is loaded; and the
    selection-complete toast is emitted exactly by the click that adds
    the fourth point. *)
Theorem C7_add_point (rect : DOMRect) (event : MouseEvent) (w : World) :
  let w' := step w (AddPoint rect event) in
  (count w = 4 \/ truthy (originalImageUrl (session w)) = false -> w' = w) /\
  (count w = 3 /\ count w' = 4 ->
   toasts w' = toasts w ++ [all_corners_selected]) /\
  (~ (count w = 3 /\ count w' = 4) -> toasts w' = toasts w).
Proof.
  intros w'. subst w'. split; [| split].
  - intros [H | H]; apply click_ignored; [right; lia | left; exact H].
  - intros [H3 H4].
    destruct (click_cases w) as [H | [Hu Hlt]].
    + rewrite click_ignored in H4 by exact H. lia.
    + rewrite click_accepted by assumption. cbn [toasts].
      now rewrite H3.
  - intros N.
    destruct (click_cases w) as [H | [Hu Hlt]].
    + now rewrite click_ignored by exact H.
    + rewrite click_accepted by assumption. cbn [toasts].
      destruct (count w =? 3) eqn:E; [| apply app_nil_r].
      apply Nat.eqb_eq in E. exfalso. apply N. split; [exact E |].
      rewrite click_accepted by assumption.
      unfold count in *. cbn [session commit cornerPoints].
      rewrite length_app. cbn. lia.
Qed.

Lemma C7_add_point_witness :
  step (Samples.loaded Samples.four_points JsNull)
       (AddPoint Samples.origin_rect (Samples.click 200 150))
  = Samples.loaded Samples.four_points JsNull /\
  step initial (AddPoint Samples.origin_rect (Samples.click 200 150)) = initial /\
  toasts (step (Samples.loaded Samples.three_points JsNull)
               (AddPoint Samples.origin_rect (Samples.click 30 300)))
  = [all_corners_selected] /\
  toasts (step (Samples.loaded [] JsNull)
               (AddPoint Samples.origin_rect (Samples.click 30 300)))
  = [].
Proof.
  split; [| split; [| split]].
  - apply (C7_add_point Samples.origin_rect (Samples.click 200 150)
                        (Samples.loaded Samples.four_points JsNull)).
    left. reflexivity.
  - apply (C7_add_point Samples.origin_rect (Samples.click 200 150) initial).
    right. reflexivity.
  - apply (C7_add_point Samples.origin_rect (Samples.click 30 300)
                        (Samples.loaded Samples.three_points JsNull)).
    split; vm_compute; reflexivity.
  - apply (C7_add_point Samples.origin_rect (Samples.click 30 300)
                        (Samples.loaded [] JsNull)).
    intros [H _]. vm_compute in H. discriminate H.
Defined.

(** *** Dragging *)

Lemma drag_corner_points rect event pointId w :
  let canvasX := (clientX event - left rect)%Qc in
  let canvasY := (clientY event - top rect)%Qc in
  let imageCoords :=
    convertToImageCoordinates (canvasSize (session w)) (imageSize (session w))
                              canvasX canvasY in
  let move point :=
    if strict_eq (draggedPoint (session w)) pointId
       && strict_eq (JsNumber (Corner.id point)) pointId
    then Corner.mk (x imageCoords) (y imageCoords) (Corner.id point)
                   canvasX canvasY
    else point in
  cornerPoints (session (step w (DragPoint rect event pointId)))
  = map move (cornerPoints (session w)).
Proof.
  intros canvasX canvasY imageCoords move. subst move.
  destruct (strict_eq (draggedPoint (session w)) pointId) eqn:E.
  - rewrite drag_accepted by exact E. reflexivity.
  - rewrite drag_ignored by exact E. cbn [andb].
    symmetry. apply map_id.
Qed.

Lemma drag_rest rect event pointId w :
  let w' := step w (DragPoint rect event pointId) in
  toasts w' = toasts w /\ requests w' = requests w /\
  imageId (session w') = imageId (session w) /\
  originalImageUrl (session w') = originalImageUrl (session w) /\
  processedImageUrl (session w') = processedImageUrl (session w) /\
  draggedPoint (session w') = draggedPoint (session w) /\
  canvasSize (session w') = canvasSize (session w) /\
  imageSize (session w') = imageSize (session w).
Proof.
  intros w'. subst w'.
  destruct (strict_eq (draggedPoint (session w)) pointId) eqn:E.
  - rewrite drag_accepted by exact E. cbn. tauto.
  - rewrite drag_ignored by exact E. tauto.
Qed.

(** C8. Frame of a drag.  A drag keeps the number of points and every
    id.  The point whose id equals the dragged id gets the converted
    image-space coordinates and the pointer position as display
    coordinates, its id unchanged; every other point is unchanged; when
    no point has that id, or the id passed is not the one being dragged,
    or no drag is in progress, the corner set is unchanged.  Nothing
    else in the session changes and nothing is emitted. *)
Theorem C8_drag_frame (rect : DOMRect) (event : MouseEvent)
        (pointId : JsId) (w : World) :
  let w' := step w (DragPoint rect event pointId) in
  let canvasX := (clientX event - left rect)%Qc in
  let canvasY := (clientY event - top rect)%Qc in
  let imageCoords :=
    convertToImageCoordinates (canvasSize (session w)) (imageSize (session w))
                              canvasX canvasY in
  ids w' = ids w /\
  (forall i p, nth_error (cornerPoints (session w)) i = Some p ->
     exists p', nth_error (cornerPoints (session w')) i = Some p' /\
       Corner.id p' = Corner.id p /\
       (draggedPoint (session w) = pointId ->
        pointId = JsNumber (Corner.id p) ->
        Corner.x p' = x imageCoords /\ Corner.y p' = y imageCoords /\
        Corner.displayX p' = canvasX /\ Corner.displayY p' = canvasY) /\
       (pointId <> JsNumber (Corner.id p) -> p' = p)) /\
  ((forall p, In p (cornerPoints (session w)) ->
              pointId <> JsNumber (Corner.id p))
   \/ draggedPoint (session w) <> pointId
   \/ draggedPoint (session w) = JsNull ->
   cornerPoints (session w') = cornerPoints (session w)) /\
  (toasts w' = toasts w /\ requests w' = requests w /\
   imageId (session w') = imageId (session w) /\
   originalImageUrl (session w') = originalImageUrl (session w) /\
   processedImageUrl (session w') = processedImageUrl (session w) /\
   draggedPoint (session w') = draggedPoint (session w) /\
   canvasSize (session w') = canvasSize (session w) /\
   imageSize (session w') = imageSize (session w)).
Proof.
  intros w' canvasX canvasY imageCoords.
  pose proof (drag_corner_points rect event pointId w) as D.
  cbv zeta in D. fold w' canvasX canvasY imageCoords in D.
  split; [| split; [| split]].
  - unfold ids. rewrite D, map_map. apply map_ext. intros p.
    now destruct (strict_eq (draggedPoint (session w)) pointId
                  && strict_eq (JsNumber (Corner.id p)) pointId).
  - intros i p Hp. rewrite D.
    rewrite nth_error_map, Hp. cbn [option_map].
    eexists. split; [reflexivity |].
    destruct (strict_eq (draggedPoint (session w)) pointId) eqn:E1;
      destruct (strict_eq (JsNumber (Corner.id p)) pointId) eqn:E2;
      cbn [andb Corner.id Corner.x Corner.y Corner.displayX Corner.displayY].
    + apply strict_eq_true in E2.
      split; [reflexivity | split; [tauto | congruence]].
    + apply strict_eq_false in E2.
      split; [reflexivity | split; [congruence | tauto]].
    + apply strict_eq_false in E1.
      split; [reflexivity | split; [congruence | tauto]].
    + apply strict_eq_false in E1.
      split; [reflexivity | split; [congruence | tauto]].
  - intros H. rewrite D.
    rewrite <- (map_id (cornerPoints (session w))) at 2.
    apply map_ext_in. intros p Hin.
    destruct (strict_eq (draggedPoint (session w)) pointId) eqn:E1;
      [| reflexivity].
    destruct (strict_eq (JsNumber (Corner.id p)) pointId) eqn:E2;
      [| reflexivity].
    apply strict_eq_true in E1, E2. exfalso.
    destruct H as [H | [H | H]].
    + apply (H p Hin). congruence.
    + contradiction.
    + congruence.
  - apply drag_rest.
Qed.

Lemma C8_drag_frame_witness :
  ids (step (Samples.loaded Samples.three_points (JsNumber 1))
            (DragPoint Samples.origin_rect (Samples.click 340 70) (JsNumber 1)))
  = [0; 1; 2] /\
  (exists p',
      nth_error
        (cornerPoints
           (session (step (Samples.loaded Samples.three_points (JsNumber 1))
                          (DragPoint Samples.origin_rect (Samples.click 340 70)
                                     (JsNumber 1))))) 1
      = Some p' /\
      Corner.id p' = 1 /\
      Corner.displayX p' = (of_Z 340 - 0)%Qc /\
      Corner.displayY p' = (of_Z 70 - 0)%Qc) /\
  cornerPoints
    (session (step (Samples.loaded Samples.three_points JsNull)
                   (DragPoint Samples.origin_rect (Samples.click 340 70)
                              JsUndefined)))
  = Samples.three_points.
Proof.
  pose proof (C8_drag_frame Samples.origin_rect (Samples.click 340 70)
                (JsNumber 1) (Samples.loaded Samples.three_points (JsNumber 1)))
    as (Hids & Hpt & _ & _).
  pose proof (C8_drag_frame Samples.origin_rect (Samples.click 340 70)
                JsUndefined (Samples.loaded Samples.three_points JsNull))
    as (_ & _ & Hnone & _).
  split; [exact Hids | split].
  - destruct (Hpt 1 (Samples.corner 1 1050 180 350 60) eq_refl)
      as (p' & Hn & Hid & Hmoved & _).
    exists p'. split; [exact Hn | split; [exact Hid |]].
    destruct (Hmoved eq_refl eq_refl) as (_ & _ & Hx & Hy).
    split; [exact Hx | exact Hy].
  - apply Hnone. right. right. reflexivity.
Defined.

(** *** Resetting *)

(** C9. Reset is total and idempotent: from every state it empties the
    corner set and clears the processed-image reference, leaving the
    other cells alone, and a second reset in a row yields the same
    session as the first; only the reset toast is emitted again. *)
Theorem C9_reset_idempotent (w : World) :
  cornerPoints (session (step w Reset)) = [] /\
  processedImageUrl (session (step w Reset)) = None /\
  session (step (step w Reset) Reset) = session (step w Reset) /\
  requests (step (step w Reset) Reset) = requests (step w Reset) /\
  toasts (step w Reset) = toasts w ++ [selection_reset] /\
  session (step w Reset)
  = mkSession (imageId (session w)) (originalImageUrl (session w)) None []
              (isUploading (session w)) (isProcessing (session w))
              (draggedPoint (session w)) (canvasSize (session w))
              (imageSize (session w)).
Proof.
  repeat split.
Qed.

(** *** Requesting the correction *)

Section Processing.

Variable axios_post_process :
  option string -> list Point2D -> Api.AxiosError + Api.ProcessData.

(** C5. With any number of corner points other than four,
    [processImageDistortion] emits the incomplete-selection toast and
    stops: no request is sent and the session, the processed-image
    reference included, is unchanged. *)
Theorem C5_incomplete_selection (w : World) :
  count w <> 4 ->
  let w' := dispatch (processImageDistortion axios_post_process) w in
  toasts w' = toasts w ++ [incomplete_selection] /\
  requests w' = requests w /\
  session w' = session w /\
  processedImageUrl (session w') = processedImageUrl (session w).
Proof.
  intros H w'. subst w'. unfold dispatch, processImageDistortion.
  replace (List.length (cornerPoints (session w)) =? 4) with false
    by (symmetry; apply Nat.eqb_neq; exact H).
  cbn. repeat split.
Qed.

(** With exactly four points the request goes out, carrying the
    image-space coordinates of the points in their order. *)
Lemma complete_selection_sends (w : World) :
  count w = 4 ->
  requests (dispatch (processImageDistortion axios_post_process) w)
  = requests w
    ++ [Api.PostProcessImage
          (imageId (session w))
          (map (fun point => mkPoint (Corner.x point) (Corner.y point))
               (cornerPoints (session w)))].
Proof.
  intros H. unfold dispatch, processImageDistortion, Api.processImage.
  replace (List.length (cornerPoints (session w)) =? 4) with true
    by (symmetry; apply Nat.eqb_eq; exact H).
  cbn [negb].
  destruct (axios_post_process _ _); reflexivity.
Qed.

End Processing.

Lemma C5_incomplete_selection_witness :
  count (Samples.loaded Samples.three_points JsNull) <> 4 /\
  toasts (dispatch (processImageDistortion Samples.process_up)
                   (Samples.loaded Samples.three_points JsNull))
  = [incomplete_selection] /\
  requests (dispatch (processImageDistortion Samples.process_up)
                     (Samples.loaded Samples.three_points JsNull))
  = [].
Proof.
  assert (H : count (Samples.loaded Samples.three_points JsNull) <> 4)
    by (intro E; discriminate E).
  split; [exact H |].
  destruct (C5_incomplete_selection Samples.process_up
              (Samples.loaded Samples.three_points JsNull) H)
    as (Ht & Hr & _).
  split; [exact Ht | exact Hr].
Defined.

(** *** Uploading *)

Section Uploading.

Variable BACKEND_URL : string.
Variable axios_post_upload : Api.File -> Api.AxiosError + Api.UploadData.

Let upload (file : option Api.File) (w : World) : World :=
  dispatch (handleImageUpload BACKEND_URL axios_post_upload file) w.

Lemma upload_nothing_chosen (w : World) : upload None w = w.
Proof. reflexivity. Qed.

(** C10. Upload failure is atomic: when validation throws or the
    upload request fails, the image identifier, the original-image
    URL, the corner set and the processed-image reference keep their
    values and one failure toast is emitted (a file that fails
    validation is not even sent); when the upload succeeds they are
    replaced by the new identifier and URL, an empty corner set and
    no processed image. *)
Theorem C10_upload_atomic (file : Api.File) (w : World) :
  let w' := upload (Some file) w in
  ((exists error, Api.validateImageFile file = inl error)
   \/ (exists error, axios_post_upload file = inl error) ->
   imageId (session w') = imageId (session w) /\
   originalImageUrl (session w') = originalImageUrl (session w) /\
   cornerPoints (session w') = cornerPoints (session w) /\
   processedImageUrl (session w') = processedImageUrl (session w) /\
   exists error, toasts w' = toasts w ++ [upload_failed error]) /\
  ((exists error, Api.validateImageFile file = inl error) ->
   requests w' = requests w) /\
  (forall data,
     Api.validateImageFile file = inr true ->
     axios_post_upload file = inr data ->
     imageId (session w') = Some (Api.image_id data) /\
     originalImageUrl (session w')
     = Some (Api.getImageUrl BACKEND_URL (Api.image_id data) "original") /\
     cornerPoints (session w') = [] /\
     processedImageUrl (session w') = None /\
     toasts w' = toasts w ++ [upload_succeeded] /\
     requests w' = requests w ++ [Api.PostUploadImage file]).
Proof.
  intros w'. subst w'.
  unfold upload, dispatch, handleImageUpload, Api.uploadImage.
  destruct (Api.validateImageFile file) as [verr | ok] eqn:V.
  - split; [| split].
    + intros _. cbn. repeat split. now exists verr.
    + intros _. reflexivity.
    + intros data E. discriminate E.
  - destruct (axios_post_upload file) as [terr | data] eqn:T.
    + split; [| split].
      * intros _. cbn. repeat split. eexists. reflexivity.
      * intros [error E]. discriminate E.
      * intros data _ E. discriminate E.
    + split; [| split].
      * intros [[error E] | [error E]]; discriminate E.
      * intros [error E]. discriminate E.
      * intros data' _ E. injection E as <-. cbn. repeat split.
Qed.

End Uploading.

Lemma C10_upload_atomic_witness :
  (* rejected by validation *)
  (session (dispatch (handleImageUpload "http://backend" Samples.upload_up
                                        (Some Samples.gif_1MiB))
                     (Samples.loaded Samples.three_points JsNull))
   = session (Samples.loaded Samples.three_points JsNull) /\
   requests (dispatch (handleImageUpload "http://backend" Samples.upload_up
                                         (Some Samples.gif_1MiB))
                      (Samples.loaded Samples.three_points JsNull))
   = []) /\
  (* rejected by the transport *)
  cornerPoints
    (session (dispatch (handleImageUpload "http://backend" Samples.upload_down
                                          (Some Samples.png_9MiB))
                       (Samples.loaded Samples.three_points JsNull)))
  = Samples.three_points /\
  (* accepted *)
  (imageId
     (session (dispatch (handleImageUpload "http://backend" Samples.upload_up
                                           (Some Samples.png_9MiB))
                        (Samples.loaded Samples.three_points JsNull)))
   = Some "img-2" /\
   cornerPoints
     (session (dispatch (handleImageUpload "http://backend" Samples.upload_up
                                           (Some Samples.png_9MiB))
                        (Samples.loaded Samples.three_points JsNull)))
   = []).
Proof.
  pose proof (C10_upload_atomic "http://backend" Samples.upload_up
                Samples.gif_1MiB (Samples.loaded Samples.three_points JsNull))
    as (Hfail & Hquiet & _).
  pose proof (C10_upload_atomic "http://backend" Samples.upload_down
                Samples.png_9MiB (Samples.loaded Samples.three_points JsNull))
    as (Hdown & _ & _).
  pose proof (C10_upload_atomic "http://backend" Samples.upload_up
                Samples.png_9MiB (Samples.loaded Samples.three_points JsNull))
    as (_ & _ & Hok).
  split; [split | split].
  - reflexivity.
  - apply Hquiet. exists Api.invalid_format. reflexivity.
  - apply Hdown. right. exists (Api.mkAxiosError None). reflexivity.
  - destruct (Hok (Api.mkUploadData "img-2") eq_refl eq_refl)
      as (Hid & _ & Hcp & _).
    split; [exact Hid | exact Hcp].
Defined.

End CorrectorFacts.

(** ** Perspective correction contract *)

Module HomographyFacts.

Import Geometry Homography.
Local Open Scope Qc_scope.

Lemma this_inj (q q' : Qc) : this q = this q' -> q = q'.
Proof.
  intro H. apply Qc_is_canon. rewrite H. reflexivity.
Qed.

(** *** Soundness of the elimination *)

Lemma dot_sub_scaled (k : num) :
  forall r p xs, List.length r = List.length p ->
  dot (sub_scaled r k p) xs = dot r xs - k * dot p xs.
Proof.
  induction r as [| a r IH]; intros [| b p] [| v xs] H;
    cbn [dot sub_scaled List.length] in *;
    try discriminate H; try ring.
  injection H as H. rewrite (IH p xs H). ring.
Qed.

Lemma length_sub_scaled (k : num) :
  forall r p, List.length r = List.length p ->
  List.length (sub_scaled r k p) = List.length r.
Proof.
  induction r as [| a r IH]; intros [| b p] H; simpl in *;
    try discriminate H; [reflexivity |].
  injection H as H. now rewrite (IH p H).
Qed.

Lemma pivot_some (rows : list Equation) :
  forall p rest, pivot rows = Some (p, rest) ->
  hd 0 (fst p) <> 0 /\
  forall P : Equation -> Prop,
    Forall P rows <-> P p /\ Forall P rest.
Proof.
  induction rows as [| r rows IH]; intros p rest H; simpl in H;
    [discriminate H |].
  destruct (is_zero (hd 0 (fst r))) eqn:Z.
  - destruct (pivot rows) as [[p' others] |]; [| discriminate H].
    injection H as <- <-. destruct (IH p' others eq_refl) as [Hp Hall].
    split; [exact Hp |]. intros P.
    rewrite !Forall_cons_iff, (Hall P). tauto.
  - injection H as <- <-. split; [now apply is_zero_false |].
    intros P. apply Forall_cons_iff.
Qed.

Lemma eliminate_holds (p r : Equation) (v : num) (xs : list num) :
  List.length (fst p) = List.length (fst r) ->
  hd 0 (fst p) <> 0 ->
  holds (v :: xs) p ->
  holds xs (eliminate p r) ->
  holds (v :: xs) r.
Proof.
  destruct p as [[| p1 pt] pb]; destruct r as [[| r1 rt] rb];
    unfold holds, eliminate; simpl; intros L Hp Ep Er;
    try discriminate L; try (exfalso; apply Hp; reflexivity).
  injection L as L.
  rewrite dot_sub_scaled in Er by (symmetry; exact L).
  assert (E : dot rt xs = rb - r1 / p1 * pb + r1 / p1 * dot pt xs)
    by (rewrite <- Er; ring).
  rewrite E, <- Ep. field. exact Hp.
Qed.

Lemma solve_sound (n : nat) :
  forall rows xs,
    well_formed n rows -> solve n rows = Some xs ->
    Forall (holds xs) rows.
Proof.
  induction n as [| n IH]; intros rows xs WF S; simpl in S.
  - destruct (forallb (fun r => is_zero (snd r)) rows) eqn:Z; [| discriminate S].
    injection S as <-. rewrite forallb_forall in Z.
    apply Forall_forall. intros [cs b] Hin.
    unfold well_formed in WF. rewrite Forall_forall in WF.
    specialize (WF _ Hin). specialize (Z _ Hin). simpl in *.
    apply is_zero_true in Z. destruct cs; [| discriminate WF].
    unfold holds. simpl. now rewrite Z.
  - destruct (pivot rows) as [[p rest] |] eqn:P; [| discriminate S].
    destruct (solve n (map (eliminate p) rest)) as [xs' |] eqn:S';
      [| discriminate S].
    injection S as <-.
    destruct (pivot_some rows p rest P) as [Hp Hall].
    unfold well_formed in WF. apply (Hall _) in WF. destruct WF as [WFp WFrest].
    assert (Hrest : Forall (holds xs') (map (eliminate p) rest)).
    { apply IH; [| exact S'].
      unfold well_formed. apply Forall_map.
      revert WFrest. apply Forall_impl. intros r Hr.
      unfold eliminate. simpl.
      destruct p as [[| p1 pt] pb]; [discriminate WFp |].
      destruct r as [[| r1 rt] rb]; [discriminate Hr |]. simpl in *.
      rewrite length_sub_scaled; lia. }
    assert (Hpiv : holds ((snd p - dot (tl (fst p)) xs') / hd 0 (fst p) :: xs') p).
    { destruct p as [[| p1 pt] pb]; [discriminate WFp |].
      unfold holds. simpl in *. field. exact Hp. }
    apply (Hall _). split; [exact Hpiv |].
    rewrite Forall_map in Hrest.
    rewrite Forall_forall in Hrest, WFrest |- *.
    intros r Hin. apply (eliminate_holds p r); auto.
    rewrite WFp. symmetry. now apply WFrest.
Qed.

(** *** Completeness of the elimination: it fails only on singular
    systems *)

Lemma eliminate_well_formed (n : nat) (p : Equation) (rest : list Equation) :
  List.length (fst p) = S n -> well_formed (S n) rest ->
  well_formed n (map (eliminate p) rest).
Proof.
  intros WFp WFrest. unfold well_formed in *. apply Forall_map.
  revert WFrest. apply Forall_impl. intros r Hr.
  unfold eliminate. cbn [fst].
  destruct p as [[| p1 pt] pb]; [discriminate WFp |].
  destruct r as [[| r1 rt] rb]; [discriminate Hr |].
  cbn [fst tl List.length] in *.
  rewrite length_sub_scaled; lia.
Qed.

Lemma eliminate_forward (p r : Equation) (v : num) (xs : list num) :
  List.length (fst p) = List.length (fst r) ->
  hd 0 (fst p) <> 0 ->
  holds (v :: xs) p -> holds (v :: xs) r ->
  holds xs (eliminate p r).
Proof.
  destruct p as [[| p1 pt] pb]; destruct r as [[| r1 rt] rb];
    unfold holds, eliminate; cbn [fst snd hd tl dot List.length];
    intros L Hp Ep Er;
    try discriminate L; try (exfalso; apply Hp; reflexivity).
  injection L as L.
  rewrite dot_sub_scaled by (symmetry; exact L).
  rewrite <- Ep, <- Er. field. exact Hp.
Qed.

Lemma pivot_length (rows : list Equation) :
  forall p rest, pivot rows = Some (p, rest) ->
                 List.length rows = S (List.length rest).
Proof.
  induction rows as [| r rows IH]; intros p rest H; cbn [pivot] in H;
    [discriminate H |].
  destruct (is_zero (hd 0 (fst r))).
  - destruct (pivot rows) as [[p' others] |] eqn:P; [| discriminate H].
    injection H as <- <-. cbn [List.length]. now rewrite (IH p' others eq_refl).
  - now injection H as <- <-.
Qed.

Lemma pivot_none (rows : list Equation) :
  pivot rows = None -> Forall (fun r => hd 0 (fst r) = 0) rows.
Proof.
  induction rows as [| r rows IH]; intros H; [constructor |].
  cbn [pivot] in H. destruct (is_zero (hd 0 (fst r))) eqn:Z; [| discriminate H].
  destruct (pivot rows) as [[p' others] |]; [discriminate H |].
  constructor; [now apply is_zero_true | now apply IH].
Qed.

Lemma solve_length (n : nat) :
  forall rows xs, solve n rows = Some xs -> List.length xs = n.
Proof.
  induction n as [| n IH]; intros rows xs S; cbn [solve] in S.
  - destruct (forallb (fun r => is_zero (snd r)) rows); [| discriminate S].
    now injection S as <-.
  - destruct (pivot rows) as [[p rest] |]; [| discriminate S].
    destruct (solve n (map (eliminate p) rest)) as [xs' |] eqn:S';
      [| discriminate S].
    injection S as <-. cbn [List.length]. now rewrite (IH _ _ S').
Qed.

Lemma reduced_solution (n : nat) (rows rest : list Equation) (p : Equation)
      (v : num) (t : list num) :
  well_formed (S n) rows -> pivot rows = Some (p, rest) ->
  solution (S n) rows (v :: t) ->
  solution n (map (eliminate p) rest) t.
Proof.
  intros WF P [L F].
  destruct (pivot_some rows p rest P) as [Hp Hall].
  unfold well_formed in WF. apply (Hall _) in WF. destruct WF as [WFp WFrest].
  apply (Hall _) in F. destruct F as [Fp Frest].
  split; [cbn [List.length] in L; lia |].
  apply Forall_map. rewrite Forall_forall in Frest, WFrest |- *.
  intros r Hin. apply (eliminate_forward p r v t); auto.
  rewrite WFp. symmetry. now apply WFrest.
Qed.

Lemma lifted_solution (n : nat) (rows rest : list Equation) (p : Equation)
      (t : list num) :
  well_formed (S n) rows -> pivot rows = Some (p, rest) ->
  solution n (map (eliminate p) rest) t ->
  solution (S n) rows ((snd p - dot (tl (fst p)) t) / hd 0 (fst p) :: t).
Proof.
  intros WF P [L F].
  destruct (pivot_some rows p rest P) as [Hp Hall].
  unfold well_formed in WF. apply (Hall _) in WF. destruct WF as [WFp WFrest].
  split; [cbn [List.length]; now rewrite L |].
  assert (Hpiv : holds ((snd p - dot (tl (fst p)) t) / hd 0 (fst p) :: t) p).
  { destruct p as [[| p1 pt] pb]; [discriminate WFp |].
    unfold holds. cbn [fst snd hd tl dot] in *. field. exact Hp. }
  apply (Hall _). split; [exact Hpiv |].
  rewrite Forall_map in F. rewrite Forall_forall in F, WFrest |- *.
  intros r Hin. apply (eliminate_holds p r); auto.
  rewrite WFp. symmetry. now apply WFrest.
Qed.

Lemma pivot_value (p : Equation) (v : num) (t : list num) (n : nat) :
  List.length (fst p) = S n -> hd 0 (fst p) <> 0 ->
  holds (v :: t) p ->
  v = (snd p - dot (tl (fst p)) t) / hd 0 (fst p).
Proof.
  destruct p as [[| p1 pt] pb]; intros L Hp E; [discriminate L |].
  unfold holds in E. cbn [fst snd hd tl dot] in *.
  rewrite <- E. field. exact Hp.
Qed.

(** What the elimination returns is the only solution. *)
Lemma solve_unique (n : nat) :
  forall rows xs,
    well_formed n rows -> solve n rows = Some xs ->
    forall ys, solution n rows ys -> ys = xs.
Proof.
  induction n as [| n IH]; intros rows xs WF S ys Hy.
  - cbn [solve] in S.
    destruct (forallb (fun r => is_zero (snd r)) rows); [| discriminate S].
    injection S as <-. destruct Hy as [L _]. now destruct ys.
  - cbn [solve] in S.
    destruct (pivot rows) as [[p rest] |] eqn:P; [| discriminate S].
    destruct (solve n (map (eliminate p) rest)) as [xs' |] eqn:S';
      [| discriminate S].
    injection S as <-.
    destruct ys as [| v t]; [destruct Hy as [L _]; discriminate L |].
    destruct (pivot_some rows p rest P) as [Hp Hall].
    pose proof WF as WF'. unfold well_formed in WF'.
    apply (Hall _) in WF'. destruct WF' as [WFp WFrest].
    assert (T : t = xs').
    { apply (IH (map (eliminate p) rest) xs').
      - now apply eliminate_well_formed.
      - exact S'.
      - now apply (reduced_solution n rows rest p v t). }
    subst t. f_equal.
    apply (pivot_value p v xs' n WFp Hp).
    destruct Hy as [_ F]. apply (Hall _) in F. tauto.
Qed.

(** On a regular system of [n] equations in [n] unknowns the elimination
    does not fail. *)
Lemma solve_complete (n : nat) :
  forall rows,
    well_formed n rows -> List.length rows = n -> regular n rows ->
    exists xs, solve n rows = Some xs.
Proof.
  induction n as [| n IH]; intros rows WF L (xs & Hx & U).
  - destruct rows; [| discriminate L]. exists []. reflexivity.
  - cbn [solve]. destruct xs as [| v t]; [destruct Hx as [Lx _]; discriminate Lx |].
    destruct (pivot rows) as [[p rest] |] eqn:P.
    + assert (R : regular n (map (eliminate p) rest)).
      { exists t. split; [now apply (reduced_solution n rows rest p v t) |].
        intros t' Ht'.
        pose proof (lifted_solution n rows rest p t' WF P Ht') as Hl.
        apply U in Hl. now injection Hl. }
      destruct (pivot_some rows p rest P) as [Hp Hall].
      pose proof WF as WF'. unfold well_formed in WF'.
      apply (Hall _) in WF'. destruct WF' as [WFp WFrest].
      destruct (IH (map (eliminate p) rest)) as [xs' S'].
      * now apply eliminate_well_formed.
      * rewrite length_map. apply pivot_length in P. lia.
      * exact R.
      * rewrite S'. eexists. reflexivity.
    + exfalso. pose proof (pivot_none rows P) as Z.
      assert (S' : solution (S n) rows ((v + 1) :: t)).
      { destruct Hx as [Lx F]. split; [exact Lx |].
        unfold well_formed in WF.
        rewrite Forall_forall in F, WF, Z |- *. intros r Hin.
        specialize (F r Hin). specialize (WF r Hin). specialize (Z r Hin).
        destruct r as [[| r1 rt] rb]; [discriminate WF |].
        unfold holds in *. cbn [fst snd hd dot] in *.
        rewrite <- F, Z. ring. }
      apply U in S'. injection S' as E.
      assert (O : (1 : num) = 0).
      { replace 1 with (v + 1 - v) by ring. rewrite E. ring. }
      discriminate O.
Qed.

(** The request is rejected exactly when its system is singular, and
    answered exactly when it is regular. *)
Lemma rejected_iff_singular (p1 p2 p3 p4 : Point2D) (W H : num) :
  0 < W -> 0 < H ->
  (getPerspectiveTransform [p1; p2; p3; p4] W H = UnsolvableTransform
   /\ singular 8 (system [p1; p2; p3; p4] W H))
  \/ (exists M, getPerspectiveTransform [p1; p2; p3; p4] W H = Ok M
      /\ regular 8 (system [p1; p2; p3; p4] W H)
      /\ solution 8 (system [p1; p2; p3; p4] W H)
                  [h11 M; h12 M; h13 M; h21 M; h22 M; h23 M; h31 M; h32 M]).
Proof.
  intros HW HH.
  assert (WF : well_formed 8 (system [p1; p2; p3; p4] W H)).
  { unfold well_formed, system. cbn [flat_map combine corners equations app].
    repeat constructor. }
  assert (L : List.length (system [p1; p2; p3; p4] W H) = 8%nat) by reflexivity.
  unfold getPerspectiveTransform.
  rewrite (proj2 (Qcleb_false W 0) HW), (proj2 (Qcleb_false H 0) HH).
  cbn [orb]. fold (system [p1; p2; p3; p4] W H).
  destruct (solve 8 (system [p1; p2; p3; p4] W H)) as [xs |] eqn:S.
  - right.
    assert (R : regular 8 (system [p1; p2; p3; p4] W H)).
    { exists xs. split.
      - split; [exact (solve_length 8 _ xs S) | exact (solve_sound 8 _ xs WF S)].
      - exact (solve_unique 8 _ xs WF S). }
    pose proof (solve_length 8 _ xs S) as Lx.
    destruct xs as [| a [| b [| c [| d [| e [| f [| g [| h [| ? ?]]]]]]]]];
      try discriminate Lx.
    eexists. split; [reflexivity | split; [exact R |]].
    cbn [h11 h12 h13 h21 h22 h23 h31 h32].
    split; [reflexivity | exact (solve_sound 8 _ _ WF S)].
  - left. split; [reflexivity |]. intros R.
    destruct (solve_complete 8 _ WF L R) as [xs S']. congruence.
Qed.

(** *** From the solved system to the correspondences *)

Ltac from_equation E :=
  match type of E with
  | ?L = ?u =>
      match goal with
      | |- ?A = ?u' * ?B =>
          transitivity (L + u * (B - 1)); [ring | rewrite E; ring]
      end
  end.

Lemma system_solves (p1 p2 p3 p4 : Point2D) (W H : num) (M : Matrix3) :
  getPerspectiveTransform [p1; p2; p3; p4] W H = Ok M ->
  h33 M = 1 /\ 0 < W /\ 0 < H /\
  solves M p1 (mkPoint 0 0) /\ solves M p2 (mkPoint W 0) /\
  solves M p3 (mkPoint W H) /\ solves M p4 (mkPoint 0 H).
Proof.
  unfold getPerspectiveTransform.
  destruct (Qcleb W 0 || Qcleb H 0) eqn:G; [discriminate |].
  apply orb_false_iff in G. destruct G as [GW GH].
  apply Qcleb_false in GW, GH.
  destruct (solve 8 _) as [xs |] eqn:S; [| discriminate].
  destruct xs as [| a [| b [| c [| d [| e [| f [| g [| h [| ? ?]]]]]]]]];
    try discriminate.
  intros E. injection E as <-.
  apply solve_sound in S;
    [| unfold well_formed; cbn [flat_map combine corners equations app];
       repeat constructor].
  cbn [flat_map combine corners equations app] in S.
  repeat match goal with
         | HF : Forall _ (_ :: _) |- _ =>
             let E := fresh "E" in
             apply Forall_cons_iff in HF; destruct HF as [E HF];
             unfold holds in E; cbn [dot fst snd x y] in E
         end.
  unfold solves, numerator_x, numerator_y, denominator.
  cbn [h11 h12 h13 h21 h22 h23 h31 h32 h33 x y].
  repeat split; try assumption; try reflexivity.
  - from_equation E.
  - from_equation E0.
  - from_equation E1.
  - from_equation E2.
  - from_equation E3.
  - from_equation E4.
  - from_equation E5.
  - from_equation E6.
Qed.

Lemma transform_solves (M : Matrix3) (p q : Point2D) :
  solves M p q -> denominator M p <> 0 -> transform M p = Some q.
Proof.
  intros [Hx Hy] Hw. unfold transform.
  rewrite (proj2 (is_zero_false _) Hw).
  destruct q as [qx qy]. cbn [x y] in *.
  rewrite Hx, Hy. f_equal. f_equal; field; exact Hw.
Qed.

(** *** The denominators do not vanish in general position *)

(** The linear dependency between four points of the plane, applied to
    a linear form. *)
Lemma dependency (alpha beta gamma : num) (p1 p2 p3 p4 : Point2D) :
  orient p2 p3 p4 * (alpha * x p1 + beta * y p1 + gamma)
  - orient p1 p3 p4 * (alpha * x p2 + beta * y p2 + gamma)
  + orient p1 p2 p4 * (alpha * x p3 + beta * y p3 + gamma)
  - orient p1 p2 p3 * (alpha * x p4 + beta * y p4 + gamma) = 0.
Proof. unfold orient. ring. Qed.

(** A linear form that vanishes at three points vanishes identically,
    unless the points are on one line. *)
Lemma independence (alpha beta gamma : num) (p1 p2 p3 : Point2D) :
  orient p1 p2 p3 * gamma
  = (alpha * x p1 + beta * y p1 + gamma) * (x p2 * y p3 - x p3 * y p2)
    - (alpha * x p2 + beta * y p2 + gamma) * (x p1 * y p3 - x p3 * y p1)
    + (alpha * x p3 + beta * y p3 + gamma) * (x p1 * y p2 - x p2 * y p1).
Proof. unfold orient. ring. Qed.

Lemma cancel (k u v : num) : k <> 0 -> k * (u - v) = 0 -> u = v.
Proof.
  intros Hk E. apply Qcmult_integral in E. destruct E as [E | E];
    [contradiction |].
  replace u with (u - v + v) by ring. rewrite E. ring.
Qed.

Lemma factor_zero (o w : num) : o <> 0 -> o * w = 0 -> w = 0.
Proof.
  intros Ho E. apply Qcmult_integral in E. destruct E; [contradiction | assumption].
Qed.

(** The four denominators, weighted by the areas of the opposite
    triangles, coincide. *)
Lemma weights_agree (p1 p2 p3 p4 : Point2D) (W H : num) (M : Matrix3) :
  W <> 0 -> H <> 0 ->
  solves M p1 (mkPoint 0 0) -> solves M p2 (mkPoint W 0) ->
  solves M p3 (mkPoint W H) -> solves M p4 (mkPoint 0 H) ->
  orient p2 p3 p4 * denominator M p1 = orient p1 p2 p3 * denominator M p4 /\
  orient p1 p3 p4 * denominator M p2 = orient p1 p2 p3 * denominator M p4 /\
  orient p1 p2 p4 * denominator M p3 = orient p1 p2 p3 * denominator M p4.
Proof.
  intros HW HH [X1 Y1] [X2 Y2] [X3 Y3] [X4 Y4].
  cbn [x y] in *.
  pose proof (dependency (h11 M) (h12 M) (h13 M) p1 p2 p3 p4) as Cx.
  pose proof (dependency (h21 M) (h22 M) (h23 M) p1 p2 p3 p4) as Cy.
  pose proof (dependency (h31 M) (h32 M) (h33 M) p1 p2 p3 p4) as Cw.
  fold (numerator_x M p1) (numerator_x M p2) (numerator_x M p3)
       (numerator_x M p4) in Cx.
  fold (numerator_y M p1) (numerator_y M p2) (numerator_y M p3)
       (numerator_y M p4) in Cy.
  fold (denominator M p1) (denominator M p2) (denominator M p3)
       (denominator M p4) in Cw.
  rewrite X1, X2, X3, X4 in Cx. rewrite Y1, Y2, Y3, Y4 in Cy.
  set (w1 := denominator M p1) in *. set (w2 := denominator M p2) in *.
  set (w3 := denominator M p3) in *. set (w4 := denominator M p4) in *.
  set (o1 := orient p2 p3 p4) in *. set (o2 := orient p1 p3 p4) in *.
  set (o3 := orient p1 p2 p4) in *. set (o4 := orient p1 p2 p3) in *.
  assert (E32 : o3 * w3 = o2 * w2).
  { apply (cancel W); [exact HW |]. rewrite <- Cx. ring. }
  assert (E34 : o3 * w3 = o4 * w4).
  { apply (cancel H); [exact HH |]. rewrite <- Cy. ring. }
  assert (E14 : o1 * w1 = o4 * w4).
  { rewrite <- E34.
    replace (o1 * w1)
      with (o1 * w1 - o2 * w2 + o3 * w3 - o4 * w4 + (o2 * w2 - o3 * w3) + o4 * w4)
      by ring.
    rewrite Cw, <- E32, <- E34. ring. }
  split; [exact E14 | split; [congruence | exact E34]].
Qed.

Lemma denominators_nonzero (p1 p2 p3 p4 : Point2D) (W H : num) (M : Matrix3) :
  general_position p1 p2 p3 p4 -> W <> 0 -> H <> 0 -> h33 M = 1 ->
  solves M p1 (mkPoint 0 0) -> solves M p2 (mkPoint W 0) ->
  solves M p3 (mkPoint W H) -> solves M p4 (mkPoint 0 H) ->
  denominator M p1 <> 0 /\ denominator M p2 <> 0 /\
  denominator M p3 <> 0 /\ denominator M p4 <> 0.
Proof.
  intros (O4 & O3 & O2 & O1) HW HH H33 S1 S2 S3 S4.
  destruct (weights_agree p1 p2 p3 p4 W H M HW HH S1 S2 S3 S4)
    as (E14 & E24 & E34).
  pose proof (independence (h31 M) (h32 M) (h33 M) p1 p2 p3) as I.
  fold (denominator M p1) (denominator M p2) (denominator M p3) in I.
  unfold collinear in *.
  assert (Hnone : orient p1 p2 p3 * denominator M p4 = 0 -> False).
  { intros K.
    assert (Z1 : denominator M p1 = 0)
      by (apply (factor_zero (orient p2 p3 p4)); congruence).
    assert (Z2 : denominator M p2 = 0)
      by (apply (factor_zero (orient p1 p3 p4)); congruence).
    assert (Z3 : denominator M p3 = 0)
      by (apply (factor_zero (orient p1 p2 p4)); congruence).
    rewrite Z1, Z2, Z3, H33 in I. apply O4.
    replace (orient p1 p2 p3) with (orient p1 p2 p3 * 1) by ring.
    rewrite I. ring. }
  repeat split; intros Z; apply Hnone.
  - rewrite <- E14, Z. ring.
  - rewrite <- E24, Z. ring.
  - rewrite <- E34, Z. ring.
  - rewrite Z. ring.
Qed.

(** A transform normalised by [h33 = 1] exists only if the normaliser
    is not zero. *)
Lemma normaliser_nonzero (p1 p2 p3 p4 : Point2D) (W H : num) (M : Matrix3) :
  general_position p1 p2 p3 p4 -> W <> 0 -> H <> 0 -> h33 M = 1 ->
  solves M p1 (mkPoint 0 0) -> solves M p2 (mkPoint W 0) ->
  solves M p3 (mkPoint W H) -> solves M p4 (mkPoint 0 H) ->
  normaliser p1 p2 p3 p4 <> 0.
Proof.
  intros (O4 & O3 & O2 & O1) HW HH H33 S1 S2 S3 S4 N.
  destruct (weights_agree p1 p2 p3 p4 W H M HW HH S1 S2 S3 S4)
    as (E14 & E24 & E34).
  pose proof (independence (h31 M) (h32 M) (h33 M) p1 p2 p3) as I.
  fold (denominator M p1) (denominator M p2) (denominator M p3) in I.
  unfold collinear, normaliser in *. rewrite H33 in I.
  set (w1 := denominator M p1) in *. set (w2 := denominator M p2) in *.
  set (w3 := denominator M p3) in *. set (w4 := denominator M p4) in *.
  set (o1 := orient p2 p3 p4) in *. set (o2 := orient p1 p3 p4) in *.
  set (o3 := orient p1 p2 p4) in *. set (o4 := orient p1 p2 p3) in *.
  set (c1 := x p2 * y p3 - x p3 * y p2) in *.
  set (c2 := x p1 * y p3 - x p3 * y p1) in *.
  set (c3 := x p1 * y p2 - x p2 * y p1) in *.
  assert (E : o1 * o2 * o3 * o4 = 0).
  { replace (o1 * o2 * o3 * o4) with (o1 * o2 * o3 * (o4 * 1)) by ring.
    rewrite I.
    replace (o1 * o2 * o3 * (w1 * c1 - w2 * c2 + w3 * c3))
      with ((o1 * w1) * (o2 * o3 * c1) - (o2 * w2) * (o1 * o3 * c2)
            + (o3 * w3) * (o1 * o2 * c3)) by ring.
    rewrite E14, E24, E34.
    replace (o4 * w4 * (o2 * o3 * c1) - o4 * w4 * (o1 * o3 * c2)
             + o4 * w4 * (o1 * o2 * c3))
      with (o4 * w4 * (o2 * o3 * c1 - o1 * o3 * c2 + o1 * o2 * c3)) by ring.
    rewrite N. ring. }
  apply Qcmult_integral in E. destruct E as [E | E]; [| contradiction].
  apply Qcmult_integral in E. destruct E as [E | E]; [| contradiction].
  apply Qcmult_integral in E. destruct E as [E | E]; contradiction.
Qed.

(** When three of the source points are on one line that misses the
    fourth, every solution of the system sends the three to no point. *)
Lemma collinear_triple_degenerate (p1 p2 p3 p4 : Point2D) (W H : num)
      (M : Matrix3) :
  collinear p1 p2 p3 -> ~ collinear p1 p3 p4 -> W <> 0 -> H <> 0 ->
  solves M p1 (mkPoint 0 0) -> solves M p2 (mkPoint W 0) ->
  solves M p3 (mkPoint W H) -> solves M p4 (mkPoint 0 H) ->
  transform M p2 = None.
Proof.
  intros C O2 HW HH S1 S2 S3 S4.
  destruct (weights_agree p1 p2 p3 p4 W H M HW HH S1 S2 S3 S4)
    as (_ & E24 & _).
  unfold collinear in *. rewrite C in E24.
  assert (Z : denominator M p2 = 0).
  { apply (factor_zero (orient p1 p3 p4)); [exact O2 |].
    rewrite E24. ring. }
  unfold transform. now rewrite (proj2 (is_zero_true _) Z).
Qed.

Lemma outcome_cases (p1 p2 p3 p4 : Point2D) (W H : num) :
  0 < W -> 0 < H ->
  getPerspectiveTransform [p1; p2; p3; p4] W H = UnsolvableTransform \/
  exists M, getPerspectiveTransform [p1; p2; p3; p4] W H = Ok M.
Proof.
  intros HW HH. unfold getPerspectiveTransform.
  rewrite (proj2 (Qcleb_false W 0) HW), (proj2 (Qcleb_false H 0) HH).
  cbn [orb].
  destruct (solve 8 _) as [xs |]; [| left; reflexivity].
  destruct xs as [| a [| b [| c [| d [| e [| f [| g [| h [| ? ?]]]]]]]]];
    try (left; reflexivity).
  right. eexists. reflexivity.
Qed.

Lemma aligned_is_identity :
  getPerspectiveTransform aligned (of_Z 400) (of_Z 300) = Ok identity.
Proof.
  assert (E : exists M,
             getPerspectiveTransform aligned (of_Z 400) (of_Z 300) = Ok M /\
             map this [h11 M; h12 M; h13 M; h21 M; h22 M; h23 M;
                       h31 M; h32 M; h33 M]
             = map this [1; 0; 0; 0; 1; 0; 0; 0; 1]).
  { eexists. split; vm_compute; reflexivity. }
  destruct E as ([a b c d e f g h i] & -> & E).
  cbn [map h11 h12 h13 h21 h22 h23 h31 h32 h33] in E.
  injection E as E1 E2 E3 E4 E5 E6 E7 E8 E9.
  rewrite (this_inj a 1 E1), (this_inj b 0 E2), (this_inj c 0 E3),
    (this_inj d 0 E4), (this_inj e 1 E5), (this_inj f 0 E6),
    (this_inj g 0 E7), (this_inj h 0 E8), (this_inj i 1 E9).
  reflexivity.
Qed.

(** In general position the request is rejected whenever the normaliser
    vanishes. *)
Lemma rejected_when_unnormalisable (p1 p2 p3 p4 : Point2D) (W H : num) :
  general_position p1 p2 p3 p4 -> 0 < W -> 0 < H ->
  normaliser p1 p2 p3 p4 = 0 ->
  getPerspectiveTransform [p1; p2; p3; p4] W H = UnsolvableTransform.
Proof.
  intros G HW HH N.
  destruct (outcome_cases p1 p2 p3 p4 W H HW HH) as [U | [M E]]; [exact U |].
  destruct (system_solves p1 p2 p3 p4 W H M E)
    as (H33 & _ & _ & S1 & S2 & S3 & S4).
  exfalso.
  exact (normaliser_nonzero p1 p2 p3 p4 W H M G (positive_nonzero W HW)
                            (positive_nonzero H HH) H33 S1 S2 S3 S4 N).
Qed.

(** C4, as the spec states it, fails in two ways.  Four points that are
    not all on one line, three of them on the line [y = 1]: the system
    is regular and a matrix is returned, but it sends the second source
    point to no point at all, not to (400, 0), and so does every matrix
    that satisfies the eight equations.  Four points no three of which
    are on one line, the corners of a convex quadrilateral: the system
    normalised by [h33 = 1] is singular, no transform is returned, and
    no matrix with [h33 = 1] satisfies the eight equations. *)
Lemma C4_counterexample :
  (~ all_collinear three_on_a_line /\
   (exists M,
       getPerspectiveTransform three_on_a_line (of_Z 400) (of_Z 300) = Ok M /\
       transform M (pt 2 1) = None /\
       transform M (pt 2 1) <> Some (mkPoint (of_Z 400) 0)) /\
   (forall M,
       solves M (pt 1 1) (mkPoint 0 0) ->
       solves M (pt 2 1) (mkPoint (of_Z 400) 0) ->
       solves M (pt 3 1) (mkPoint (of_Z 400) (of_Z 300)) ->
       solves M (pt 1 2) (mkPoint 0 (of_Z 300)) ->
       transform M (pt 2 1) = None)) /\
  (general_position (pt 12 36) (pt 12 24) (pt 9 15) (pt 8 16) /\
   getPerspectiveTransform vanishing_through_origin (of_Z 400) (of_Z 300)
   = UnsolvableTransform /\
   (forall M,
       h33 M = 1 ->
       ~ (solves M (pt 12 36) (mkPoint 0 0) /\
          solves M (pt 12 24) (mkPoint (of_Z 400) 0) /\
          solves M (pt 9 15) (mkPoint (of_Z 400) (of_Z 300)) /\
          solves M (pt 8 16) (mkPoint 0 (of_Z 300))))).
Proof.
  assert (G : general_position (pt 12 36) (pt 12 24) (pt 9 15) (pt 8 16)).
  { unfold general_position, collinear. repeat split; qc_closed. }
  split; [split; [| split] | split; [| split]].
  - intros A.
    assert (C : collinear (pt 1 1) (pt 2 1) (pt 1 2)).
    { apply A; cbn; auto. }
    unfold collinear in C. apply (f_equal this) in C.
    vm_compute in C. discriminate C.
  - eexists. split; [vm_compute; reflexivity |].
    assert (E : forall T, T = None -> T = None /\
                                      T <> Some (mkPoint (of_Z 400) 0)).
    { intros T ->. split; [reflexivity | discriminate]. }
    apply E. vm_compute. reflexivity.
  - intros M S1 S2 S3 S4.
    apply (collinear_triple_degenerate (pt 1 1) (pt 2 1) (pt 3 1) (pt 1 2)
             (of_Z 400) (of_Z 300) M); try assumption;
      unfold collinear; qc_closed.
  - exact G.
  - vm_compute. reflexivity.
  - intros M H33 (S1 & S2 & S3 & S4).
    apply (normaliser_nonzero (pt 12 36) (pt 12 24) (pt 9 15) (pt 8 16)
             (of_Z 400) (of_Z 300) M G); try assumption; qc_closed.
Qed.

(** C4, amended.  For four source points no three of which are on one
    line and a destination of positive width and height, either the
    linear system normalised by [h33 = 1] is singular and the request
    is rejected as unsolvable, or the system is regular and the
    computed matrix, whose entries are its solution, maps the four
    source points, in their order, exactly onto (0,0), (W,0), (W,H),
    (0,H); and for the source points (0,0), (400,0), (400,300),
    (0,300) with a 400 x 300 destination the computed matrix is the
    identity. *)
Theorem C4_transform_maps_corners :
  (forall (p1 p2 p3 p4 : Point2D) (W H : num),
      general_position p1 p2 p3 p4 -> 0 < W -> 0 < H ->
      (singular 8 (system [p1; p2; p3; p4] W H) /\
       getPerspectiveTransform [p1; p2; p3; p4] W H = UnsolvableTransform)
      \/
      (regular 8 (system [p1; p2; p3; p4] W H) /\
       exists M,
         getPerspectiveTransform [p1; p2; p3; p4] W H = Ok M /\
         solution 8 (system [p1; p2; p3; p4] W H)
                  [h11 M; h12 M; h13 M; h21 M; h22 M; h23 M; h31 M; h32 M] /\
         h33 M = 1 /\
         transform M p1 = Some (mkPoint 0 0) /\
         transform M p2 = Some (mkPoint W 0) /\
         transform M p3 = Some (mkPoint W H) /\
         transform M p4 = Some (mkPoint 0 H))) /\
  getPerspectiveTransform aligned (of_Z 400) (of_Z 300) = Ok identity.
Proof.
  split; [| exact aligned_is_identity].
  intros p1 p2 p3 p4 W H G HW HH.
  destruct (rejected_iff_singular p1 p2 p3 p4 W H HW HH)
    as [[U S] | (M & E & R & X)];
    [left; split; assumption | right].
  split; [exact R |]. exists M. split; [exact E | split; [exact X |]].
  destruct (system_solves p1 p2 p3 p4 W H M E)
    as (H33 & _ & _ & S1 & S2 & S3 & S4).
  destruct (denominators_nonzero p1 p2 p3 p4 W H M G
              (positive_nonzero W HW) (positive_nonzero H HH)
              H33 S1 S2 S3 S4) as (N1 & N2 & N3 & N4).
  split; [exact H33 |].
  repeat split; apply transform_solves; assumption.
Qed.

Lemma C4_transform_maps_corners_witness :
  general_position (pt 50 80) (pt 350 60) (pt 380 280) (pt 30 300) /\
  regular 8 (system skewed (of_Z 400) (of_Z 300)) /\
  exists M,
    getPerspectiveTransform skewed (of_Z 400) (of_Z 300) = Ok M /\
    transform M (pt 50 80) = Some (mkPoint 0 0) /\
    transform M (pt 350 60) = Some (mkPoint (of_Z 400) 0) /\
    transform M (pt 380 280) = Some (mkPoint (of_Z 400) (of_Z 300)) /\
    transform M (pt 30 300) = Some (mkPoint 0 (of_Z 300)).
Proof.
  assert (G : general_position (pt 50 80) (pt 350 60) (pt 380 280) (pt 30 300)).
  { unfold general_position, collinear. repeat split; qc_closed. }
  split; [exact G |].
  destruct (proj1 C4_transform_maps_corners
                  (pt 50 80) (pt 350 60) (pt 380 280) (pt 30 300)
                  (of_Z 400) (of_Z 300) G)
    as [[_ U] | (R & M & E & _ & _ & T)].
  - vm_compute. reflexivity.
  - vm_compute. reflexivity.
  - exfalso. vm_compute in U. discriminate U.
  - split; [exact R |]. exists M. split; [exact E | exact T].
Defined.

End HomographyFacts.


(** * Further properties of the code *)

From Stdlib Require Import Ascii.

(** ** Coordinate mapper: bounds and shape *)

Module MapperFacts.

Import Geometry.
Local Open Scope Qc_scope.

Lemma ratio_positive (a b : num) : 0 < a -> 0 < b -> 0 < a / b.
Proof.
  intros Ha Hb. destruct (Qclt_le_dec 0 (a / b)) as [P | N]; [exact P |].
  exfalso. apply (Qcle_not_lt a 0); [| exact Ha].
  replace a with (a / b * b) by (field; now apply positive_nonzero).
  replace 0 with (0 * b) by ring.
  apply Qcmult_le_compat_r; [exact N | now apply Qclt_le_weak].
Qed.

Lemma scaled_within (a d s i : num) :
  0 <= a -> a <= d -> 0 < d -> 0 < i -> s = i / d ->
  0 <= a * s /\ a * s <= i.
Proof.
  intros Ha Had Hd Hi ->.
  pose proof (Qclt_le_weak _ _ (ratio_positive i d Hi Hd)) as Hs.
  split.
  - replace 0 with (0 * (i / d)) by ring. now apply Qcmult_le_compat_r.
  - replace i with (d * (i / d)) at 2 by (field; now apply positive_nonzero).
    now apply Qcmult_le_compat_r.
Qed.

(** In exact rational arithmetic, a click inside the canvas lands inside
    the image: with canvas and image measured, canvas coordinates within
    [0, width] x [0, height] of the canvas convert to image coordinates
    within [0, width] x [0, height] of the image.  With the rounding of
    floating-point numbers a click on the far edge of the canvas can
    land one unit in the last place beyond the edge of the image. *)
Theorem click_lands_in_image (d i : Size) (a b : num) :
  0 < width d -> 0 < height d -> 0 < width i -> 0 < height i ->
  0 <= a -> a <= width d -> 0 <= b -> b <= height d ->
  let q := convertToImageCoordinates d i a b in
  (0 <= x q /\ x q <= width i) /\ (0 <= y q /\ y q <= height i).
Proof.
  intros Hdw Hdh Hiw Hih Ha Haw Hb Hbh q. subst q.
  rewrite GeometryFacts.to_image_scaled by (now apply positive_nonzero).
  cbn [x y]. split.
  - now apply (scaled_within a (width d) _ (width i)).
  - now apply (scaled_within b (height d) _ (height i)).
Qed.

Lemma click_lands_in_image_witness :
  (0 <= x (convertToImageCoordinates Samples.canvas_640 Samples.image_1080p
                                     (of_Z 640) (of_Z 90))
   /\ x (convertToImageCoordinates Samples.canvas_640 Samples.image_1080p
                                   (of_Z 640) (of_Z 90))
      <= width Samples.image_1080p)
  /\ (0 <= y (convertToImageCoordinates Samples.canvas_640 Samples.image_1080p
                                        (of_Z 640) (of_Z 90))
      /\ y (convertToImageCoordinates Samples.canvas_640 Samples.image_1080p
                                      (of_Z 640) (of_Z 90))
         <= height Samples.image_1080p).
Proof.
  apply (click_lands_in_image Samples.canvas_640 Samples.image_1080p
                              (of_Z 640) (of_Z 90));
    try qc_closed; vm_compute; discriminate.
Defined.

Lemma round_trip_image_witness :
  convertToImageCoordinates
    Samples.canvas_640 Samples.image_1080p
    (x (convertToCanvasCoordinates Samples.canvas_640 Samples.image_1080p
                                   (of_Z 360) (of_Z 135)))
    (y (convertToCanvasCoordinates Samples.canvas_640 Samples.image_1080p
                                   (of_Z 360) (of_Z 135)))
  = mkPoint (of_Z 360) (of_Z 135).
Proof.
  apply (GeometryFacts.round_trip_image (mkPoint (of_Z 360) (of_Z 135))
           Samples.canvas_640 Samples.image_1080p); qc_closed.
Defined.

(** In exact rational arithmetic, the conversion scales signed areas by
    the product of the two scale factors, so three canvas points are on
    one line exactly when their image points are.  With the rounding of
    floating-point numbers the signed area of three converted points
    that were on one line can differ from zero by a rounding error. *)
Theorem conversion_keeps_collinearity (d i : Size) (p q r : Point2D) :
  width d <> 0 -> height d <> 0 -> width i <> 0 -> height i <> 0 ->
  let to_image c := convertToImageCoordinates d i (x c) (y c) in
  Homography.orient (to_image p) (to_image q) (to_image r)
  = (width i / width d) * (height i / height d) * Homography.orient p q r
  /\ (Homography.collinear (to_image p) (to_image q) (to_image r)
      <-> Homography.collinear p q r).
Proof.
  intros Hdw Hdh Hiw Hih to_image. subst to_image. cbv beta.
  rewrite !GeometryFacts.to_image_scaled by assumption.
  assert (E : Homography.orient
                {| x := x p * (width i / width d); y := y p * (height i / height d) |}
                {| x := x q * (width i / width d); y := y q * (height i / height d) |}
                {| x := x r * (width i / width d); y := y r * (height i / height d) |}
              = (width i / width d) * (height i / height d)
                * Homography.orient p q r).
  { unfold Homography.orient. cbn [x y]. ring. }
  split; [exact E |].
  unfold Homography.collinear. rewrite E. split.
  - intros Z. apply Qcmult_integral in Z. destruct Z as [Z | Z]; [| exact Z].
    exfalso. apply Qcmult_integral in Z.
    assert (N : forall u v : num, u <> 0 -> v <> 0 -> u / v <> 0).
    { intros u v Hu Hv F. apply Hu.
      replace u with (u / v * v) by (field; exact Hv). rewrite F. ring. }
    destruct Z as [Z | Z]; revert Z; now apply N.
  - intros ->. ring.
Qed.

Lemma conversion_keeps_collinearity_witness :
  Homography.collinear
    (convertToImageCoordinates Samples.canvas_640 Samples.image_1080p
                               (of_Z 10) (of_Z 10))
    (convertToImageCoordinates Samples.canvas_640 Samples.image_1080p
                               (of_Z 20) (of_Z 20))
    (convertToImageCoordinates Samples.canvas_640 Samples.image_1080p
                               (of_Z 30) (of_Z 30)).
Proof.
  apply (conversion_keeps_collinearity
           Samples.canvas_640 Samples.image_1080p
           (mkPoint (of_Z 10) (of_Z 10)) (mkPoint (of_Z 20) (of_Z 20))
           (mkPoint (of_Z 30) (of_Z 30))); try qc_closed.
  unfold Homography.collinear. qc_closed.
Defined.

End MapperFacts.

(** ** REST client: errors, URLs, download *)

Module ClientFacts.

Import Api.

(** On string and absent details the two models of the client agree. *)
Lemma string_details_agree (Number : Type) (number_truthy : Number -> bool)
      (number_to_string : Number -> string)
      (d : option string) (fallback : string) :
  Wire.new_Error number_truthy number_to_string
                 (option_map Wire.JsonString d) fallback
  = Wire.ThrowError (mkError (or_default d fallback)).
Proof.
  destruct d as [[| c s] |]; reflexivity.
Qed.

Lemma widened_requests_agree (Number : Type) (number_truthy : Number -> bool)
      (number_to_string : Number -> string)
      (BACKEND_URL : string) (Info : Type)
      (axios_post_upload : File -> AxiosError + UploadData)
      (axios_post_process :
         option string -> list Geometry.Point2D -> AxiosError + ProcessData)
      (axios_get : string -> AxiosError + Info) :
  let thrown {A : Type} (r : Error + A) : Wire.Thrown + A :=
    match r with
    | inl e => inl (Wire.ThrowError e)
    | inr data => inr data
    end in
  (forall file,
      Wire.uploadImage number_truthy number_to_string
                       (Wire.widened (Number := Number) axios_post_upload) file
      = (fst (uploadImage axios_post_upload file),
         thrown (snd (uploadImage axios_post_upload file)))) /\
  (forall imageId points,
      Wire.processImage number_truthy number_to_string
                        (fun i => Wire.widened (Number := Number)
                                               (axios_post_process i))
                        imageId points
      = (fst (processImage axios_post_process imageId points),
         thrown (snd (processImage axios_post_process imageId points)))) /\
  (forall imageId,
      Wire.getImageInfo number_truthy number_to_string BACKEND_URL
                        (Wire.widened (Number := Number) axios_get) imageId
      = (fst (Client.getImageInfo BACKEND_URL Info axios_get imageId),
         thrown (snd (Client.getImageInfo BACKEND_URL Info axios_get imageId)))).
Proof.
  cbv zeta. repeat split; intros;
    unfold Wire.uploadImage, Wire.processImage, Wire.getImageInfo,
      uploadImage, processImage, Client.getImageInfo, Wire.widened;
    cbn [fst snd].
  - destruct (axios_post_upload file) as [error | data]; [| reflexivity].
    unfold Wire.widen. cbn [Wire.detail].
    rewrite string_details_agree. reflexivity.
  - destruct (axios_post_process imageId points) as [error | data];
      [| reflexivity].
    unfold Wire.widen. cbn [Wire.detail].
    rewrite string_details_agree. reflexivity.
  - destruct (axios_get _) as [error | data]; [| reflexivity].
    unfold Wire.widen. cbn [Wire.detail].
    rewrite string_details_agree. reflexivity.
Qed.

Lemma decimal_nonempty (n : Z) : Wire.decimal n <> EmptyString.
Proof.
  unfold Wire.decimal.
  destruct n as [| p | p]; cbn; try discriminate;
    destruct (Pos.to_uint p); discriminate.
Qed.

Lemma all_objects (Number : Type) (number_to_string : Number -> string)
      (errors : list (list (string * Wire.Json Number))) :
  Forall (fun members => Wire.has_own "toString" members = false) errors ->
  Wire.ToString number_to_string (Wire.JsonArray (map Wire.JsonObject errors))
  = Some (String.concat "," (repeat "[object Object]" (List.length errors))).
Proof.
  intros F. cbn [Wire.ToString].
  assert (E : Wire.all_some
                (map (fun item : Wire.Json Number =>
                        match item with
                        | Wire.JsonNull => Some EmptyString
                        | _ => Wire.ToString number_to_string item
                        end)
                     (map Wire.JsonObject errors))
              = Some (repeat "[object Object]"%string (List.length errors))).
  { induction F as [| members rest M _ IH]; [reflexivity |].
    cbn [map List.length repeat Wire.all_some Wire.ToString].
    rewrite M, IH. reflexivity. }
  rewrite E. reflexivity.
Qed.

Section Transport.

Variable Number : Type.
Variable number_truthy : Number -> bool.
Variable number_to_string : Number -> string.
Hypothesis number_to_string_nonempty :
  forall n, number_to_string n <> EmptyString.

Variable BACKEND_URL : string.
Variable Info : Type.
Variable axios_post_upload : File -> Wire.AxiosError Number + UploadData.
Variable axios_post_process :
  option string -> list Geometry.Point2D
  -> Wire.AxiosError Number + ProcessData.
Variable axios_get : string -> Wire.AxiosError Number + Info.

(** What the three requests throw.  [uploadImage], [processImage] and
    [getImageInfo] throw exactly when the transport fails, and return
    the response data unchanged otherwise.  The message of the error
    thrown is the fixed text of the function when the server's [detail]
    is absent or falsy, and the detail itself when that is a non-empty
    string.  Any other truthy detail is converted to a string: an object
    gives ["[object Object]"] (or a [TypeError] instead of the error,
    when it has a member [toString]), an array of objects, as sent for a
    request that fails validation, gives ["[object Object]"] once per
    element, separated by commas, and the empty array gives the empty
    message.  The message is empty only when the detail is an array. *)
Theorem thrown_message :
  (forall file,
      match axios_post_upload file with
      | inl error =>
          snd (Wire.uploadImage number_truthy number_to_string
                                axios_post_upload file)
          = inl (Wire.new_Error number_truthy number_to_string
                                (Wire.detail error) "Failed to upload image")
      | inr data =>
          snd (Wire.uploadImage number_truthy number_to_string
                                axios_post_upload file)
          = inr data
      end) /\
  (forall imageId points,
      match axios_post_process imageId points with
      | inl error =>
          snd (Wire.processImage number_truthy number_to_string
                                 axios_post_process imageId points)
          = inl (Wire.new_Error number_truthy number_to_string
                                (Wire.detail error) "Failed to process image")
      | inr data =>
          snd (Wire.processImage number_truthy number_to_string
                                 axios_post_process imageId points)
          = inr data
      end) /\
  (forall imageId,
      match axios_get (getImageUrl BACKEND_URL imageId "info") with
      | inl error =>
          snd (Wire.getImageInfo number_truthy number_to_string
                                 BACKEND_URL axios_get imageId)
          = inl (Wire.new_Error number_truthy number_to_string
                                (Wire.detail error)
                                "Failed to get image information")
      | inr data =>
          snd (Wire.getImageInfo number_truthy number_to_string
                                 BACKEND_URL axios_get imageId)
          = inr data
      end) /\
  (forall (detail : option (Wire.Json Number)) (fallback : string),
      fallback <> EmptyString ->
      let thrown :=
        Wire.new_Error number_truthy number_to_string detail fallback in
      (detail = None -> thrown = Wire.ThrowError (mkError fallback)) /\
      (forall v,
          detail = Some v -> Wire.ToBoolean number_truthy v = false ->
          thrown = Wire.ThrowError (mkError fallback)) /\
      (forall s,
          detail = Some (Wire.JsonString s) -> s <> EmptyString ->
          thrown = Wire.ThrowError (mkError s)) /\
      (forall members,
          detail = Some (Wire.JsonObject members) ->
          thrown = if Wire.has_own "toString" members
                   then Wire.ThrowTypeError
                   else Wire.ThrowError (mkError "[object Object]")) /\
      (forall errors,
          detail = Some (Wire.JsonArray (map Wire.JsonObject errors)) ->
          Forall (fun members => Wire.has_own "toString" members = false)
                 errors ->
          thrown = Wire.ThrowError
                     (mkError (String.concat
                                 "," (repeat "[object Object]"
                                             (List.length errors))))) /\
      (detail = Some (Wire.JsonArray []) ->
       thrown = Wire.ThrowError (mkError EmptyString)) /\
      (forall e,
          thrown = Wire.ThrowError e -> message e = EmptyString ->
          exists items, detail = Some (Wire.JsonArray items))).
Proof.
  split; [| split; [| split]].
  - intros file. unfold Wire.uploadImage. cbn [snd].
    destruct (axios_post_upload file); reflexivity.
  - intros imageId points. unfold Wire.processImage. cbn [snd].
    destruct (axios_post_process imageId points); reflexivity.
  - intros imageId. unfold Wire.getImageInfo. cbn [snd].
    change (API BACKEND_URL ++ "/images/" ++ imageId ++ "/info")%string
      with (getImageUrl BACKEND_URL imageId "info").
    destruct (axios_get (getImageUrl BACKEND_URL imageId "info")); reflexivity.
  - intros detail fallback NE thrown. subst thrown.
    split; [intros ->; reflexivity |].
    split; [intros v -> F; unfold Wire.new_Error; rewrite F; reflexivity |].
    split; [intros [| c s] -> S; [now contradiction S | reflexivity] |].
    split; [intros members ->; unfold Wire.new_Error;
            cbn [Wire.ToBoolean Wire.ToString];
            destruct (Wire.has_own "toString" members); reflexivity |].
    split; [intros errors -> F; unfold Wire.new_Error;
            cbn [Wire.ToBoolean];
            rewrite (all_objects Number number_to_string errors F);
            reflexivity |].
    split; [intros ->; reflexivity |].
    intros e T M.
    destruct detail as [[| [|] | n | [| c s] | items | members] |];
      unfold Wire.new_Error in T; cbn [Wire.ToBoolean Wire.ToString] in T;
      try (injection T as <-; cbn [message] in M;
           (contradiction (NE M) || discriminate M)).
    + destruct (number_truthy n); injection T as <-; cbn [message] in M;
        [contradiction (number_to_string_nonempty n M) | contradiction (NE M)].
    + exists items. reflexivity.
    + destruct (Wire.has_own "toString" members);
        [discriminate T | injection T as <-; discriminate M].
Qed.

End Transport.

Lemma thrown_message_witness :
  snd (Wire.uploadImage Wire.nonzero Wire.decimal
                        Wire.upload_unprocessable Samples.png_9MiB)
  = inl (Wire.ThrowError (mkError "[object Object]")).
Proof.
  destruct (thrown_message Z Wire.nonzero Wire.decimal decimal_nonempty
                           "http://backend" unit
                           Wire.upload_unprocessable
                           (fun _ _ => inl (Wire.mkAxiosError None))
                           (fun _ => inr tt))
    as (U & _ & _ & D).
  pose proof (U Samples.png_9MiB) as E. cbn [Wire.upload_unprocessable] in E.
  rewrite E. apply f_equal.
  assert (NE : "Failed to upload image"%string <> EmptyString)
    by discriminate.
  destruct (D (Some Wire.field_required) "Failed to upload image"%string NE)
    as (_ & _ & _ & _ & A & _).
  apply (A [[("type"%string, Wire.JsonString "missing");
             ("loc"%string,
              Wire.JsonArray [Wire.JsonString "body"; Wire.JsonString "file"]);
             ("msg"%string, Wire.JsonString "Field required");
             ("input"%string, Wire.JsonNull)]]).
  - reflexivity.
  - repeat constructor.
Defined.

(** *** URLs *)

Lemma list_ascii_of_append (a b : string) :
  list_ascii_of_string (a ++ b)%string
  = list_ascii_of_string a ++ list_ascii_of_string b.
Proof.
  induction a as [| c a IH]; cbn; [reflexivity | now rewrite IH].
Qed.

Lemma list_ascii_inj (a b : string) :
  list_ascii_of_string a = list_ascii_of_string b -> a = b.
Proof.
  intros H.
  rewrite <- (string_of_list_ascii_of_string a),
          <- (string_of_list_ascii_of_string b).
  now rewrite H.
Qed.

Lemma append_inv_head (a b c : string) :
  (a ++ b)%string = (a ++ c)%string -> b = c.
Proof.
  intros H. apply list_ascii_inj. apply (f_equal list_ascii_of_string) in H.
  rewrite !list_ascii_of_append in H. now apply app_inv_head in H.
Qed.

Lemma append_inv_tail (a b c : string) :
  (a ++ c)%string = (b ++ c)%string -> a = b.
Proof.
  intros H. apply list_ascii_inj. apply (f_equal list_ascii_of_string) in H.
  rewrite !list_ascii_of_append in H. now apply app_inv_tail in H.
Qed.

(** Image URLs do not collide: for one variant, different image
    identifiers give different URLs; and the URL of an original never
    equals the URL of a processed image, whatever the identifiers. *)
Theorem image_urls_distinct (BACKEND_URL id1 id2 variant : string) :
  (id1 <> id2 ->
   getImageUrl BACKEND_URL id1 variant <> getImageUrl BACKEND_URL id2 variant) /\
  getImageUrl BACKEND_URL id1 "original"
  <> getImageUrl BACKEND_URL id2 "processed".
Proof.
  unfold getImageUrl. split.
  - intros N H. apply N.
    apply append_inv_head in H. apply append_inv_head in H.
    now apply (append_inv_tail id1 id2 ("/" ++ variant)%string).
  - intros H. apply append_inv_head in H. apply append_inv_head in H.
    apply (f_equal list_ascii_of_string) in H.
    rewrite !list_ascii_of_append in H.
    change (list_ascii_of_string "original")
      with (list_ascii_of_string "origina" ++ ["l"%char]) in H.
    change (list_ascii_of_string "processed")
      with (list_ascii_of_string "processe" ++ ["d"%char]) in H.
    rewrite !app_assoc in H. apply app_inj_tail in H.
    destruct H as [_ H]. discriminate H.
Qed.

Lemma image_urls_distinct_witness :
  getImageUrl "http://backend" "img-1" "original"
  <> getImageUrl "http://backend" "img-2" "original".
Proof.
  apply (image_urls_distinct "http://backend" "img-1" "img-2" "original").
  discriminate.
Defined.

(** *** Download *)

Lemma detach_fresh (e : Dom.Element) (children : list Dom.Element) :
  (forall c, In c children -> (Dom.node c < Dom.node e)%nat) ->
  Dom.detach e children = children.
Proof.
  intros H. unfold Dom.detach. induction children as [| c l IH]; [reflexivity |].
  cbn [filter]. unfold Dom.same_node at 1.
  replace (Dom.node e =? Dom.node c)%nat with false.
  - cbn [negb]. f_equal. apply IH. intros c' Hin. apply H. now right.
  - symmetry. apply Nat.eqb_neq. specialize (H c (or_introl eq_refl)). lia.
Qed.

Lemma detach_last (e : Dom.Element) (children : list Dom.Element) :
  (forall c, In c children -> (Dom.node c < Dom.node e)%nat) ->
  Dom.is_child e (children ++ [e]) = true /\
  Dom.detach e (children ++ [e]) = children.
Proof.
  intros H. split.
  - unfold Dom.is_child. rewrite existsb_app. cbn [existsb].
    unfold Dom.same_node at 2. rewrite Nat.eqb_refl.
    cbn. apply orb_true_r.
  - unfold Dom.detach. rewrite filter_app. fold (Dom.detach e children).
    rewrite (detach_fresh e children H). cbn [filter].
    unfold Dom.same_node. rewrite Nat.eqb_refl. cbn. apply app_nil_r.
Qed.

Lemma download_with_body (BACKEND_URL imageId : string) (doc : Dom.Document)
      (children : list Dom.Element) :
  Dom.body doc = Some children -> Dom.well_formed doc ->
  Client.downloadImage BACKEND_URL imageId doc
  = (None,
     Dom.mkDocument
       (Some children) (S (Dom.created doc))
       (Dom.clicked doc
        ++ [Dom.mkElement (Dom.created doc)
                          (getImageUrl BACKEND_URL imageId "download")
                          ("corrected-image-" ++ imageId ++ ".png")%string])).
Proof.
  intros B WF.
  assert (F : forall c, In c children -> (Dom.node c < Dom.created doc)%nat).
  { intros c Hin. exact (WF children c B Hin). }
  unfold Client.downloadImage, Dom.createElement, Dom.appendChild.
  cbn [Dom.body Dom.node]. rewrite B.
  set (link := Dom.mkElement
                 (Dom.created doc)
                 (API BACKEND_URL ++ "/images/" ++ imageId ++ "/download")%string
                 ("corrected-image-" ++ imageId ++ ".png")%string).
  rewrite (detach_fresh link children F).
  unfold Dom.removeChild, Dom.click. cbn [Dom.body Dom.created Dom.clicked].
  destruct (detach_last link children F) as [C D].
  rewrite C, D. reflexivity.
Qed.

Lemma download_without_body (BACKEND_URL imageId : string) (doc : Dom.Document) :
  Dom.body doc = None ->
  fst (Client.downloadImage BACKEND_URL imageId doc) = Some Dom.TypeError /\
  Dom.body (snd (Client.downloadImage BACKEND_URL imageId doc)) = None /\
  Dom.clicked (snd (Client.downloadImage BACKEND_URL imageId doc))
  = Dom.clicked doc.
Proof.
  intros B. unfold Client.downloadImage, Dom.createElement, Dom.appendChild.
  cbn [Dom.body]. rewrite B. cbn. repeat split.
Qed.

(** [downloadImage] leaves the page as it found it: on a page whose
    elements were all created by [createElement], the link is appended,
    clicked once and removed again, so the children of the body are
    unchanged and exactly one click is recorded, on a link to the
    download URL of the image that suggests the file name
    corrected-image-<id>.png; no exception is raised.  On a page without
    a body the call raises a [TypeError] and clicks nothing. *)
Theorem download_leaves_page_clean (BACKEND_URL imageId : string)
        (doc : Dom.Document) :
  (forall children,
      Dom.body doc = Some children -> Dom.well_formed doc ->
      Client.downloadImage BACKEND_URL imageId doc
      = (None,
         Dom.mkDocument
           (Some children) (S (Dom.created doc))
           (Dom.clicked doc
            ++ [Dom.mkElement (Dom.created doc)
                              (getImageUrl BACKEND_URL imageId "download")
                              ("corrected-image-" ++ imageId ++ ".png")%string]))) /\
  (Dom.body doc = None ->
   fst (Client.downloadImage BACKEND_URL imageId doc) = Some Dom.TypeError /\
   Dom.body (snd (Client.downloadImage BACKEND_URL imageId doc)) = None /\
   Dom.clicked (snd (Client.downloadImage BACKEND_URL imageId doc))
   = Dom.clicked doc).
Proof.
  split.
  - intros children. apply download_with_body.
  - apply download_without_body.
Qed.

Lemma download_leaves_page_clean_witness :
  Dom.body
    (snd (Client.downloadImage
            "http://backend" "img-1"
            (Dom.mkDocument
               (Some [Dom.mkElement 0 "/" EmptyString]) 1 [])))
  = Some [Dom.mkElement 0 "/" EmptyString].
Proof.
  destruct (download_leaves_page_clean
              "http://backend" "img-1"
              (Dom.mkDocument (Some [Dom.mkElement 0 "/" EmptyString]) 1 []))
    as [H _].
  rewrite (H [Dom.mkElement 0 "/" EmptyString] eq_refl); [reflexivity |].
  intros children e B Hin. cbn in B. injection B as <-.
  destruct Hin as [<- | []]. cbn. lia.
Defined.

End ClientFacts.

(** ** The component: correction requests *)

Module FlightFacts.

Import Geometry Corrector View.
Local Open Scope nat_scope.

(** The pointer events and the reset never send a request and never
    touch the busy flags, the image identifier, its URL or its size. *)
Lemma step_frame (w : World) (op : Op) :
  requests (step w op) = requests w /\
  isProcessing (session (step w op)) = isProcessing (session w) /\
  isUploading (session (step w op)) = isUploading (session w) /\
  imageId (session (step w op)) = imageId (session w) /\
  originalImageUrl (session (step w op)) = originalImageUrl (session w) /\
  imageSize (session (step w op)) = imageSize (session w).
Proof.
  destruct op as [rect event | rect event pointId | | point | | canvas img].
  - destruct (CorrectorFacts.click_cases w) as [H | [Hu Hlt]].
    + rewrite CorrectorFacts.click_ignored by exact H. tauto.
    + rewrite CorrectorFacts.click_accepted by assumption. cbn. tauto.
  - destruct (strict_eq (draggedPoint (session w)) pointId) eqn:E.
    + rewrite CorrectorFacts.drag_accepted by exact E. cbn. tauto.
    + rewrite CorrectorFacts.drag_ignored by exact E. tauto.
  - cbn. tauto.
  - cbn. tauto.
  - cbn. tauto.
  - destruct canvas, img as [img |]; try (cbn; tauto).
    unfold step, dispatch, handler_of, updateCanvasSize, displayCoordinatesEffect.
    cbn [run fold_left perform session commit cornerPoints canvasSize].
    destruct (_ && _); cbn; tauto.
Qed.

Lemma gesture_while_busy (w : World) (g : Gesture) :
  isProcessing (session w) = true ->
  requests (gesture w g) = requests w /\
  isProcessing (session (gesture w g)) = true.
Proof.
  intros B. destruct g as [op |]; cbn [gesture].
  - destruct (step_frame w op) as (R & P & _). now rewrite R, P.
  - unfold correctDisabled. rewrite B, orb_true_r. now split.
Qed.

Lemma gestures_while_busy (gs : list Gesture) :
  forall w, isProcessing (session w) = true ->
            requests (gestures gs w) = requests w /\
            isProcessing (session (gestures gs w)) = true.
Proof.
  induction gs as [| g gs IH]; intros w B; [now split |].
  destruct (gesture_while_busy w g B) as [R P].
  destruct (IH (gesture w g) P) as [R' P'].
  cbn [gestures fold_left]. fold (gestures gs (gesture w g)).
  split; [congruence | exact P'].
Qed.

Lemma press_then_gestures (w : World) (gs : list Gesture) :
  correctDisabled (session w) = false ->
  requests (gestures gs (gesture w PressCorrect))
  = requests w
    ++ [Api.PostProcessImage
          (imageId (session w))
          (map (fun point => mkPoint (Corner.x point) (Corner.y point))
               (cornerPoints (session w)))]
  /\ isProcessing (session (gestures gs (gesture w PressCorrect))) = true.
Proof.
  intros E. cbn [gesture]. rewrite E.
  unfold correctDisabled in E. apply orb_false_iff in E. destruct E as [E4 _].
  assert (B : isProcessing (session (dispatch processBegin w)) = true).
  { unfold dispatch, processBegin. rewrite E4. reflexivity. }
  destruct (gestures_while_busy gs _ B) as [R P].
  rewrite R. split; [| exact P].
  unfold dispatch, processBegin. rewrite E4. reflexivity.
Qed.

(** One correction in flight.  When the Correct Distortion button is
    enabled, pressing it sends one request with the image identifier and
    the image-space coordinates of the four points, and until the answer
    arrives nothing the user does (clicks, drags, resets, resizes,
    further presses of the button) sends another one: the button stays
    disabled. *)
Theorem one_correction_in_flight (w : World) (gs : list Gesture) :
  correctDisabled (session w) = false ->
  let busy := gestures gs (gesture w PressCorrect) in
  requests busy
  = requests w
    ++ [Api.PostProcessImage
          (imageId (session w))
          (map (fun point => mkPoint (Corner.x point) (Corner.y point))
               (cornerPoints (session w)))]
  /\ isProcessing (session busy) = true
  /\ correctDisabled (session busy) = true.
Proof.
  intros E busy. subst busy.
  destruct (press_then_gestures w gs E) as [R P].
  split; [exact R | split; [exact P |]].
  unfold correctDisabled. rewrite P. apply orb_true_r.
Qed.

Lemma one_correction_in_flight_witness :
  List.length
    (requests
       (gestures [PressCorrect; Pointer Reset; PressCorrect;
                  Pointer (AddPoint Samples.origin_rect (Samples.click 5 5));
                  PressCorrect]
                 (gesture (Samples.loaded Samples.four_points JsNull)
                          PressCorrect)))
  = 1.
Proof.
  destruct (one_correction_in_flight
              (Samples.loaded Samples.four_points JsNull)
              [PressCorrect; Pointer Reset; PressCorrect;
               Pointer (AddPoint Samples.origin_rect (Samples.click 5 5));
               PressCorrect] eq_refl) as (R & _).
  rewrite R. reflexivity.
Defined.

Section Processing.

Variable axios_post_process :
  option string -> list Point2D -> Api.AxiosError + Api.ProcessData.

(** The two halves make the whole: with nothing happening in between,
    [processImageDistortion] is its first half, up to the request,
    followed by its second half, on the outcome of the request. *)
Lemma halves_compose (w : World) :
  count w = 4 ->
  dispatch (processImageDistortion axios_post_process) w
  = run (processSettle
           (snd (Api.processImage
                   axios_post_process (imageId (session w))
                   (map (fun point => mkPoint (Corner.x point) (Corner.y point))
                        (cornerPoints (session w))))))
        (dispatch processBegin w).
Proof.
  intros H. unfold dispatch, processImageDistortion, processBegin, processSettle,
              Api.processImage, count in *.
  rewrite H. cbn [Nat.eqb negb snd map].
  destruct (axios_post_process _ _); reflexivity.
Qed.

(** A correction either succeeds or changes nothing.  With four points
    selected, [processImageDistortion] sends exactly one request, leaves
    the corner points, the image identifier and the image URL alone and
    ends with the busy flag cleared; when the request fails the
    processed-image reference keeps its value and the failure is
    reported with the message of the error; when it succeeds the
    reference becomes the URL of the answer. *)
Theorem correction_failure_is_atomic (w : World) :
  count w = 4 ->
  let w' := dispatch (processImageDistortion axios_post_process) w in
  let points := map (fun point => mkPoint (Corner.x point) (Corner.y point))
                    (cornerPoints (session w)) in
  requests w' = requests w ++ [Api.PostProcessImage (imageId (session w)) points]
  /\ isProcessing (session w') = false
  /\ cornerPoints (session w') = cornerPoints (session w)
  /\ imageId (session w') = imageId (session w)
  /\ originalImageUrl (session w') = originalImageUrl (session w)
  /\ (forall error,
         snd (Api.processImage axios_post_process (imageId (session w)) points)
         = inl error ->
         processedImageUrl (session w') = processedImageUrl (session w) /\
         toasts w' = toasts w ++ [processing_failed error])
  /\ (forall result,
         snd (Api.processImage axios_post_process (imageId (session w)) points)
         = inr result ->
         processedImageUrl (session w')
         = Some (Api.processed_image_url result) /\
         toasts w' = toasts w ++ [processing_succeeded result]).
Proof.
  intros H w' points. subst w' points.
  unfold dispatch, processImageDistortion, Api.processImage, count in *.
  rewrite H. cbn [Nat.eqb negb snd].
  destruct (axios_post_process _ _) as [failure | data]; cbn;
    repeat split;
    match goal with
    | E : inl _ = inr _ |- _ => discriminate E
    | E : inr _ = inl _ |- _ => discriminate E
    | E : inl _ = inl _ |- _ => injection E as <-; reflexivity
    | E : inr _ = inr _ |- _ => injection E as <-; reflexivity
    end.
Qed.

End Processing.

Lemma correction_failure_is_atomic_witness :
  processedImageUrl
    (session (dispatch (processImageDistortion Samples.process_up)
                       (Samples.loaded Samples.four_points JsNull)))
  = Some "/api/images/img-1/processed"
  /\ isProcessing
       (session (dispatch (processImageDistortion Samples.process_up)
                          (Samples.loaded Samples.four_points JsNull)))
     = false.
Proof.
  destruct (correction_failure_is_atomic
              Samples.process_up (Samples.loaded Samples.four_points JsNull)
              eq_refl) as (_ & P & _ & _ & _ & _ & S).
  split; [| exact P].
  destruct (S (Api.mkProcessData "/api/images/img-1/processed" "2.3s") eq_refl)
    as [U _].
  exact U.
Defined.

(** A late answer is not discarded.  If the user resets the selection
    while the correction is outstanding, the answer that arrives
    afterwards is stored all the same: the session ends with no corner
    points, the busy flag cleared, and the processed-image reference set
    to the URL of the answer. *)
Theorem late_answer_survives_reset (w : World) (gs : list Gesture)
        (result : Api.ProcessData) :
  correctDisabled (session w) = false ->
  let reset := gestures (gs ++ [Pointer Reset]) (gesture w PressCorrect) in
  let settled := run (processSettle (inr result)) reset in
  requests settled
  = requests w
    ++ [Api.PostProcessImage
          (imageId (session w))
          (map (fun point => mkPoint (Corner.x point) (Corner.y point))
               (cornerPoints (session w)))]
  /\ processedImageUrl (session reset) = None
  /\ cornerPoints (session settled) = []
  /\ processedImageUrl (session settled) = Some (Api.processed_image_url result)
  /\ isProcessing (session settled) = false
  /\ toasts settled = toasts reset ++ [processing_succeeded result].
Proof.
  intros E reset settled.
  destruct (press_then_gestures w (gs ++ [Pointer Reset]) E) as (R & _).
  fold reset in R. subst settled.
  split; [cbn [processSettle app run fold_left perform requests]; exact R |].
  subst reset. unfold gestures. rewrite fold_left_app. cbn [fold_left gesture].
  repeat split.
Qed.

Lemma late_answer_survives_reset_witness :
  processedImageUrl
    (session
       (run (processSettle (inr (Api.mkProcessData "/p" "1s")))
            (gestures ([] ++ [Pointer Reset])
                      (gesture (Samples.loaded Samples.four_points JsNull)
                               PressCorrect))))
  = Some "/p".
Proof.
  destruct (late_answer_survives_reset
              (Samples.loaded Samples.four_points JsNull) []
              (Api.mkProcessData "/p" "1s") eq_refl) as (_ & _ & _ & U & _).
  exact U.
Defined.

End FlightFacts.

(** ** The component: building a selection *)

Module SelectionFacts.

Import Geometry Corrector View.
Local Open Scope nat_scope.

Lemma steps_frame (ops : list Op) :
  forall w,
    requests (steps ops w) = requests w /\
    isProcessing (session (steps ops w)) = isProcessing (session w) /\
    imageId (session (steps ops w)) = imageId (session w) /\
    originalImageUrl (session (steps ops w)) = originalImageUrl (session w) /\
    imageSize (session (steps ops w)) = imageSize (session w).
Proof.
  induction ops as [| op ops IH]; intros w; [cbn; tauto |].
  cbn [steps fold_left]. fold (steps ops (step w op)).
  destruct (IH (step w op)) as (R & P & I & U & S).
  destruct (FlightFacts.step_frame w op) as (R' & P' & _ & I' & U' & S').
  repeat split; congruence.
Qed.

Lemma clicks_from (events : list (DOMRect * MouseEvent)) :
  forall w k,
    truthy (originalImageUrl (session w)) = true ->
    count w = k -> k <= 4 ->
    let w' := steps (clicks events) w in
    cornerPoints (session w')
    = cornerPoints (session w)
      ++ map (fun kc => placed (canvasSize (session w)) (imageSize (session w))
                               (fst kc) (snd kc))
             (combine (seq k (4 - k)) events)
    /\ toasts w'
       = toasts w
         ++ (if (k <? 4) && (4 - k <=? List.length events)
             then [all_corners_selected] else []).
Proof.
  induction events as [| [rect event] events IH]; intros w k Hu Hk Hle w'.
  - subst w'. cbn [clicks map steps fold_left List.length].
    rewrite combine_nil, app_nil_r.
    replace (4 - k <=? 0) with (4 <=? k)
      by (destruct k as [| [| [| [| [| k]]]]]; reflexivity).
    destruct (k <? 4) eqn:L, (4 <=? k) eqn:G; cbn [andb];
      try (now rewrite app_nil_r).
    apply Nat.ltb_lt in L. apply Nat.leb_le in G. lia.
  - subst w'. cbn [clicks map steps fold_left fst snd].
    fold (clicks events). fold (steps (clicks events) (step w (AddPoint rect event))).
    destruct (Nat.eq_dec k 4) as [-> | N].
    + rewrite CorrectorFacts.click_ignored by (right; lia).
      destruct (IH w 4 Hu Hk Hle) as [P T]. cbn in P, T |- *.
      split; assumption.
    + assert (Hlt : count w < 4) by lia.
      pose proof (CorrectorFacts.click_accepted rect event w Hu Hlt) as A.
      cbv zeta in A. rewrite A. clear A.
      set (w1 := mkWorld _ _ _).
      assert (C1 : count w1 = S k).
      { subst w1. unfold count in *. cbn. rewrite length_app. cbn. lia. }
      destruct (IH w1 (S k)) as [P T]; [exact Hu | exact C1 | lia |].
      rewrite P, T. subst w1. cbn [session commit cornerPoints canvasSize
                                    imageSize toasts].
      replace (4 - k) with (S (4 - S k)) by lia.
      cbn [seq combine map fst snd List.length]. unfold placed at 2.
      cbn [fst snd]. rewrite Hk, <- !app_assoc. cbn [app].
      split; [reflexivity |]. f_equal.
      destruct k as [| [| [| [| k]]]]; try lia; cbn;
        destruct (List.length events) as [| [| [| n]]]; reflexivity.
Qed.

Lemma combine_seq_snd {A B : Type} (g : A -> B) (l : list A) :
  forall a n, map (fun kc => g (snd kc)) (combine (seq a n) l)
              = map g (firstn n l).
Proof.
  induction l as [| e l IH]; intros a [| n]; cbn; try reflexivity.
  now rewrite IH.
Qed.

(** Filling the selection.  On a loaded image with no point selected, a
    series of clicks stores the first four of them and ignores the rest:
    the points are the clicks converted to image space, numbered in the
    order of the clicks, the count is the number of clicks capped at
    four, and the selection-complete toast is emitted once if there are
    at least four clicks and not at all otherwise. *)
Theorem clicks_fill_selection (w : World) (events : list (DOMRect * MouseEvent)) :
  truthy (originalImageUrl (session w)) = true ->
  cornerPoints (session w) = [] ->
  let w' := steps (clicks events) w in
  cornerPoints (session w')
  = map (fun kc => placed (canvasSize (session w)) (imageSize (session w))
                          (fst kc) (snd kc))
        (combine (seq 0 4) events)
  /\ count w' = Nat.min (List.length events) 4
  /\ toasts w'
     = toasts w ++ (if 4 <=? List.length events
                    then [all_corners_selected] else []).
Proof.
  intros Hu He w'.
  assert (C : count w = 0) by (unfold count; now rewrite He).
  destruct (clicks_from events w 0 Hu C) as [P T]; [lia |].
  fold w' in P, T. rewrite He in P. cbn [app] in P.
  split; [exact P | split; [| exact T]].
  unfold count. rewrite P, length_map, length_combine, length_seq. lia.
Qed.

Lemma clicks_fill_selection_witness :
  count (steps (clicks [(Samples.origin_rect, Samples.click 50 80);
                        (Samples.origin_rect, Samples.click 350 60);
                        (Samples.origin_rect, Samples.click 380 280);
                        (Samples.origin_rect, Samples.click 30 300);
                        (Samples.origin_rect, Samples.click 200 150)])
               (Samples.loaded [] JsNull))
  = 4.
Proof.
  destruct (clicks_fill_selection
              (Samples.loaded [] JsNull)
              [(Samples.origin_rect, Samples.click 50 80);
               (Samples.origin_rect, Samples.click 350 60);
               (Samples.origin_rect, Samples.click 380 280);
               (Samples.origin_rect, Samples.click 30 300);
               (Samples.origin_rect, Samples.click 200 150)]
              eq_refl eq_refl) as (_ & C & _).
  exact C.
Defined.

Section Processing.

Variable axios_post_process :
  option string -> list Point2D -> Api.AxiosError + Api.ProcessData.

(** From clicks to the request.  After at least four clicks on a loaded
    image with no point selected, asking for the correction sends one
    request that carries the image identifier and the first four clicks,
    in their order, converted from canvas to image coordinates. *)
Theorem clicked_points_are_sent (w : World)
        (events : list (DOMRect * MouseEvent)) :
  truthy (originalImageUrl (session w)) = true ->
  cornerPoints (session w) = [] ->
  4 <= List.length events ->
  requests (dispatch (processImageDistortion axios_post_process)
                     (steps (clicks events) w))
  = requests w
    ++ [Api.PostProcessImage
          (imageId (session w))
          (map (fun click =>
                  convertToImageCoordinates
                    (canvasSize (session w)) (imageSize (session w))
                    (clientX (snd click) - left (fst click))%Qc
                    (clientY (snd click) - top (fst click))%Qc)
               (firstn 4 events))].
Proof.
  intros Hu He Hn.
  assert (C0 : count w = 0) by (unfold count; now rewrite He).
  destruct (clicks_from events w 0 Hu C0) as [P _]; [lia |].
  rewrite He in P. cbn [app] in P.
  assert (C : count (steps (clicks events) w) = 4).
  { unfold count. rewrite P, length_map, length_combine, length_seq. lia. }
  destruct (steps_frame (clicks events) w) as (R & _ & I & _).
  rewrite CorrectorFacts.complete_selection_sends by exact C.
  rewrite R, I, P, map_map. do 3 f_equal.
  rewrite <- (combine_seq_snd
                (fun click =>
                   convertToImageCoordinates
                     (canvasSize (session w)) (imageSize (session w))
                     (clientX (snd click) - left (fst click))%Qc
                     (clientY (snd click) - top (fst click))%Qc)
                events 0 4).
  apply map_ext. intros [k [rect event]]. unfold placed. cbn [fst snd Corner.x Corner.y].
  now destruct (convertToImageCoordinates _ _ _ _).
Qed.

End Processing.

Lemma clicked_points_are_sent_witness :
  List.length
    (requests
       (dispatch (processImageDistortion Samples.process_up)
                 (steps (clicks [(Samples.origin_rect, Samples.click 50 80);
                                 (Samples.origin_rect, Samples.click 350 60);
                                 (Samples.origin_rect, Samples.click 380 280);
                                 (Samples.origin_rect, Samples.click 30 300)])
                        (Samples.loaded [] JsNull))))
  = 1.
Proof.
  rewrite (clicked_points_are_sent
             Samples.process_up (Samples.loaded [] JsNull)
             [(Samples.origin_rect, Samples.click 50 80);
              (Samples.origin_rect, Samples.click 350 60);
              (Samples.origin_rect, Samples.click 380 280);
              (Samples.origin_rect, Samples.click 30 300)]
             eq_refl eq_refl).
  - reflexivity.
  - cbn. lia.
Defined.

End SelectionFacts.

(** ** The component: a complete selection, dragging as wired *)

Module ReadyFacts.

Import Geometry Corrector View.
Local Open Scope nat_scope.

Lemma step_keeps_four (w : World) (op : Op) :
  count w = 4 -> op <> Reset ->
  count (step w op) = 4 /\ toasts (step w op) = toasts w.
Proof.
  intros H N.
  destruct op as [rect event | rect event pointId | | point | | canvas img].
  - rewrite CorrectorFacts.click_ignored by (right; lia). now split.
  - destruct (CorrectorFacts.drag_rest rect event pointId w) as (T & _).
    split; [| exact T].
    unfold count in *.
    rewrite (CorrectorFacts.drag_corner_points rect event pointId w).
    now rewrite length_map.
  - contradiction.
  - now split.
  - now split.
  - destruct canvas, img as [img |]; try (now split).
    unfold step, dispatch, handler_of, updateCanvasSize, displayCoordinatesEffect.
    cbn [run fold_left perform session commit cornerPoints canvasSize].
    destruct (_ && _); [| now split].
    unfold count in *. cbn. rewrite length_map. now split.
Qed.

(** A complete selection stays complete.  Once four points are
    selected, no click, drag, begin-drag, release or resize changes
    their number or emits a toast: only a reset (or a new upload) leaves
    the state in which the correction can be requested. *)
Theorem complete_until_reset (w : World) (ops : list Op) :
  count w = 4 -> Forall (fun op => op <> Reset) ops ->
  count (steps ops w) = 4 /\
  toasts (steps ops w) = toasts w /\
  requests (steps ops w) = requests w.
Proof.
  intros H F. revert w H.
  induction F as [| op ops N F IH]; intros w H; [now repeat split |].
  destruct (step_keeps_four w op H N) as [C T].
  destruct (IH (step w op) C) as (C' & T' & R').
  destruct (FlightFacts.step_frame w op) as (R & _).
  cbn [steps fold_left]. fold (steps ops (step w op)).
  repeat split; congruence.
Qed.

Lemma complete_until_reset_witness :
  count (steps Samples.five_clicks (Samples.loaded Samples.four_points JsNull))
  = 4.
Proof.
  apply (complete_until_reset (Samples.loaded Samples.four_points JsNull)
                              Samples.five_clicks).
  - reflexivity.
  - repeat constructor; discriminate.
Defined.

Lemma step_never_undefined (w : World) (op : Op) :
  draggedPoint (session w) <> JsUndefined ->
  draggedPoint (session (step w op)) <> JsUndefined.
Proof.
  intros H.
  destruct op as [rect event | rect event pointId | | point | | canvas img].
  - destruct (CorrectorFacts.click_cases w) as [I | [Hu Hlt]].
    + now rewrite CorrectorFacts.click_ignored by exact I.
    + rewrite CorrectorFacts.click_accepted by assumption. exact H.
  - destruct (CorrectorFacts.drag_rest rect event pointId w)
      as (_ & _ & _ & _ & _ & D & _).
    now rewrite D.
  - exact H.
  - discriminate.
  - discriminate.
  - destruct canvas, img as [img |]; try exact H.
    unfold step, dispatch, handler_of, updateCanvasSize, displayCoordinatesEffect.
    cbn [run fold_left perform session commit cornerPoints canvasSize].
    destruct (_ && _); exact H.
Qed.

Lemma steps_never_undefined (ops : list Op) :
  forall w, draggedPoint (session w) <> JsUndefined ->
            draggedPoint (session (steps ops w)) <> JsUndefined.
Proof.
  induction ops as [| op ops IH]; intros w H; [exact H |].
  apply (IH (step w op)). now apply step_never_undefined.
Qed.

(** Dragging as wired does nothing.  [handlePointDrag] is installed as
    the [onMouseMove] handler of the canvas, so it is called with the
    event alone and its [pointId] is [undefined]; the dragged id is only
    ever [null] or a number.  Hence in every state reached from one
    where the dragged id is not [undefined], whatever happened before
    (begin-drag gestures included), a mouse move changes nothing at
    all: no point is ever moved. *)
Theorem wired_drag_is_inert (w0 : World) (ops : list Op)
        (rect : DOMRect) (event : MouseEvent) :
  draggedPoint (session w0) <> JsUndefined ->
  step (steps ops w0) (DragPoint rect event JsUndefined) = steps ops w0.
Proof.
  intros H. apply CorrectorFacts.drag_ignored.
  apply CorrectorFacts.strict_eq_false.
  now apply steps_never_undefined.
Qed.

Lemma wired_drag_is_inert_witness :
  step (steps [BeginDrag (Samples.corner 1 1050 180 350 60)]
              (Samples.loaded Samples.three_points JsNull))
       (DragPoint Samples.origin_rect (Samples.click 340 70) JsUndefined)
  = steps [BeginDrag (Samples.corner 1 1050 180 350 60)]
          (Samples.loaded Samples.three_points JsNull).
Proof.
  apply (wired_drag_is_inert (Samples.loaded Samples.three_points JsNull)
                             [BeginDrag (Samples.corner 1 1050 180 350 60)]).
  discriminate.
Defined.

End ReadyFacts.

(** ** The component: display coordinates *)

Module DisplayFacts.

Import Geometry Corrector View.

Lemma display_round_trip (d i : Size) (a b : num) :
  (0 < width d)%Qc -> (0 < height d)%Qc ->
  (0 < width i)%Qc -> (0 < height i)%Qc ->
  a = x (convertToCanvasCoordinates
           d i (x (convertToImageCoordinates d i a b))
           (y (convertToImageCoordinates d i a b))) /\
  b = y (convertToCanvasCoordinates
           d i (x (convertToImageCoordinates d i a b))
           (y (convertToImageCoordinates d i a b))).
Proof.
  intros Hdw Hdh Hiw Hih.
  apply positive_nonzero in Hdw, Hdh, Hiw, Hih.
  rewrite GeometryFacts.to_image_scaled by assumption.
  rewrite GeometryFacts.to_canvas_scaled by assumption.
  cbn [x y]. split; field; auto.
Qed.

Lemma synced_same_sizes (s s' : Session) (p : CornerPoint) :
  canvasSize s' = canvasSize s -> imageSize s' = imageSize s ->
  synced s p -> synced s' p.
Proof.
  unfold synced. intros -> ->. tauto.
Qed.

Lemma placed_synced (s s' : Session) (k : nat) (a b : num) :
  laid_out s -> canvasSize s' = canvasSize s -> imageSize s' = imageSize s ->
  synced s'
         (Corner.mk (x (convertToImageCoordinates (canvasSize s) (imageSize s) a b))
                    (y (convertToImageCoordinates (canvasSize s) (imageSize s) a b))
                    k a b).
Proof.
  intros (Hdw & Hdh & Hiw & Hih) Ec Ei. unfold synced. rewrite Ec, Ei.
  cbn [Corner.x Corner.y Corner.displayX Corner.displayY].
  now apply display_round_trip.
Qed.

Lemma step_in_sync (w : World) (op : Op) :
  visible op -> in_sync w -> in_sync (step w op).
Proof.
  intros V [L F].
  destruct op as [rect event | rect event pointId | | point | | canvas img].
  - destruct (CorrectorFacts.click_cases w) as [I | [Hu Hlt]].
    + rewrite CorrectorFacts.click_ignored by exact I. now split.
    + rewrite CorrectorFacts.click_accepted by assumption.
      split; [exact L |]. cbn [session commit cornerPoints].
      apply Forall_app. split.
      * revert F. apply Forall_impl. intros p. now apply synced_same_sizes.
      * constructor; [| constructor]. now apply placed_synced.
  - destruct (CorrectorFacts.drag_rest rect event pointId w)
      as (_ & _ & _ & _ & _ & _ & Ec & Ei).
    split.
    + unfold laid_out. rewrite Ec, Ei. exact L.
    + rewrite (CorrectorFacts.drag_corner_points rect event pointId w).
      apply Forall_map. revert F. apply Forall_impl. intros p Hp.
      destruct (_ && _).
      * now apply placed_synced.
      * now apply (synced_same_sizes (session w)).
  - split; [exact L | constructor].
  - now split.
  - now split.
  - destruct canvas, img as [img |]; try (now split).
    destruct V as [Vw Vh]. destruct L as (_ & _ & Hiw & Hih).
    unfold step, dispatch, handler_of, updateCanvasSize, displayCoordinatesEffect.
    cbn [run fold_left perform session commit cornerPoints canvasSize width].
    replace (Qcleb (width (bounding img)) 0) with false
      by (symmetry; now apply Qcleb_false).
    cbn [negb]. rewrite andb_true_r.
    destruct (cornerPoints (session w)) as [| p l] eqn:E.
    + cbn. split; [| constructor].
      unfold laid_out. cbn. tauto.
    + cbn [List.length Nat.ltb Nat.leb run fold_left perform session commit
           cornerPoints].
      split; [unfold laid_out; cbn; tauto |].
      cbn [session cornerPoints].
      apply Forall_map. apply Forall_forall. intros q _.
      unfold synced. cbn. split; reflexivity.
Qed.

(** In exact rational arithmetic, the display coordinates are a cache of
    the image coordinates.  Once the canvas and the image are measured
    and every stored point's display coordinates are the canvas position
    of its image coordinates, this stays true along every sequence of
    clicks, drags, resets, begin-drag and release gestures and resizes
    to a visible size: clicks and drags store a consistent pair, and a
    resize recomputes every display coordinate for the new canvas size.
    With the rounding of floating-point numbers the pair stored by a
    click or a drag is consistent up to a rounding error only. *)
Theorem display_follows_image (w : World) (ops : list Op) :
  in_sync w -> Forall visible ops -> in_sync (steps ops w).
Proof.
  intros S F. revert w S.
  induction F as [| op ops V F IH]; intros w S; [exact S |].
  apply (IH (step w op)). now apply step_in_sync.
Qed.

Lemma display_follows_image_witness :
  in_sync (steps Samples.script (Samples.loaded [] JsNull)).
Proof.
  apply (display_follows_image (Samples.loaded [] JsNull) Samples.script).
  - split; [| constructor].
    unfold laid_out. cbn. repeat split; qc_closed.
  - unfold Samples.script, Samples.five_clicks.
    repeat (constructor; try exact I).
Defined.

(** A resize moves only the display shadow.  Whatever the new size, a
    resize leaves the number of points, their ids and their image-space
    coordinates as they were, emits nothing and sends nothing; and
    resizing a second time to the same size changes nothing more. *)
Theorem resize_moves_only_display (w : World) (canvas : bool)
        (img : option ImageElement) :
  let w' := step w (Relayout canvas img) in
  map Corner.id (cornerPoints (session w'))
  = map Corner.id (cornerPoints (session w))
  /\ map Corner.x (cornerPoints (session w'))
     = map Corner.x (cornerPoints (session w))
  /\ map Corner.y (cornerPoints (session w'))
     = map Corner.y (cornerPoints (session w))
  /\ toasts w' = toasts w
  /\ requests w' = requests w
  /\ step w' (Relayout canvas img) = w'.
Proof.
  intros w'. subst w'.
  destruct canvas, img as [img |]; try (cbn; repeat split; fail).
  unfold step, dispatch, handler_of, updateCanvasSize, displayCoordinatesEffect.
  cbn [run fold_left perform session commit cornerPoints canvasSize imageSize
       toasts requests width height].
  destruct ((0 <? List.length (cornerPoints (session w)))%nat
            && negb (Qcleb (width (bounding img)) 0)) eqn:G.
  - cbn [run fold_left perform session commit cornerPoints canvasSize imageSize
         toasts requests width height].
    rewrite length_map, G.
    cbn [run fold_left perform session commit cornerPoints canvasSize imageSize
         toasts requests width height].
    rewrite !map_map. cbn [Corner.id Corner.x Corner.y].
    repeat split.
  - cbn [run fold_left perform session commit cornerPoints canvasSize imageSize
         toasts requests width height].
    rewrite G.
    cbn [run fold_left perform session commit cornerPoints canvasSize imageSize
         toasts requests width height].
    repeat split.
Qed.

End DisplayFacts.

(** ** The component: upload, download, overlay *)

Module PageFacts.

Import Geometry Corrector View.
Local Open Scope nat_scope.

(** An upload attempt always settles.  Whatever the file and whatever
    the transport answers, after [handleImageUpload] the uploading flag
    is cleared, exactly one toast has been emitted, the request went out
    exactly when the file passed validation, and the cells that do not
    describe the image (drag state, canvas and image size, processing
    flag) are untouched; with no file chosen nothing happens at all. *)
Theorem upload_always_settles (BACKEND_URL : string)
        (axios_post_upload : Api.File -> Api.AxiosError + Api.UploadData)
        (w : World) :
  dispatch (handleImageUpload BACKEND_URL axios_post_upload None) w = w /\
  forall file,
    let w' := dispatch (handleImageUpload BACKEND_URL axios_post_upload
                                          (Some file)) w in
    isUploading (session w') = false
    /\ List.length (toasts w') = S (List.length (toasts w))
    /\ requests w'
       = requests w
         ++ match Api.validateImageFile file with
            | inl _ => []
            | inr _ => [Api.PostUploadImage file]
            end
    /\ isProcessing (session w') = isProcessing (session w)
    /\ draggedPoint (session w') = draggedPoint (session w)
    /\ canvasSize (session w') = canvasSize (session w)
    /\ imageSize (session w') = imageSize (session w).
Proof.
  split; [reflexivity |].
  intros file w'. subst w'.
  unfold dispatch, handleImageUpload, Api.uploadImage.
  destruct (Api.validateImageFile file) as [verr | ok].
  - cbn. rewrite length_app, app_nil_r. cbn. repeat split. lia.
  - destruct (axios_post_upload file) as [terr | data]; cbn;
      rewrite length_app; cbn; repeat split; lia.
Qed.

(** [handleDownload] never changes the session and never sends a
    request.  Without an image identifier it does nothing.  With one, on
    a page with a body, it triggers one download of that image, leaves
    the page as it was and emits the download-started toast, whether or
    not a corrected image exists; when the page operation throws it
    emits the download-failed toast instead. *)
Theorem download_is_read_only (BACKEND_URL : string) (doc : Dom.Document)
        (w : World) :
  let result := handleDownload BACKEND_URL doc (session w) in
  session (run (snd result) w) = session w
  /\ requests (run (snd result) w) = requests w
  /\ (truthy (imageId (session w)) = false -> result = (doc, []))
  /\ (forall id children,
         imageId (session w) = Some id -> id <> EmptyString ->
         Dom.body doc = Some children -> Dom.well_formed doc ->
         snd result = [Notify download_started] /\
         Dom.body (fst result) = Some children /\
         Dom.clicked (fst result)
         = Dom.clicked doc
           ++ [Dom.mkElement (Dom.created doc)
                             (Api.getImageUrl BACKEND_URL id "download")
                             ("corrected-image-" ++ id ++ ".png")%string])
  /\ (forall id,
         imageId (session w) = Some id -> id <> EmptyString ->
         Dom.body doc = None ->
         snd result = [Notify download_failed] /\
         Dom.clicked (fst result) = Dom.clicked doc).
Proof.
  intros result. subst result. unfold handleDownload.
  destruct (imageId (session w)) as [[| c rest] |] eqn:I.
  - cbn. repeat split; intros; try congruence.
    all: match goal with H : Some _ = Some _ |- _ => injection H as <- end;
      contradiction.
  - split; [| split; [| split; [| split]]].
    + destruct (Client.downloadImage _ _ _) as [[e |] doc']; reflexivity.
    + destruct (Client.downloadImage _ _ _) as [[e |] doc']; reflexivity.
    + cbn. discriminate.
    + intros id children E N B WF. injection E as <-.
      rewrite (ClientFacts.download_with_body BACKEND_URL _ doc children B WF).
      cbn. repeat split.
    + intros id E N B. injection E as <-.
      destruct (ClientFacts.download_without_body BACKEND_URL (String c rest) doc B)
        as (T & _ & C).
      destruct (Client.downloadImage _ _ _) as [[e |] doc'];
        cbn in *; [| discriminate T].
      now split.
  - cbn. repeat split; intros; congruence.
Qed.

Lemma download_is_read_only_witness :
  snd (handleDownload "http://backend"
                      (Dom.mkDocument (Some []) 0 [])
                      (session (Samples.loaded Samples.three_points JsNull)))
  = [Notify download_started].
Proof.
  destruct (download_is_read_only
              "http://backend" (Dom.mkDocument (Some []) 0 [])
              (Samples.loaded Samples.three_points JsNull))
    as (_ & _ & _ & H & _).
  apply (H "img-1" []); try reflexivity; try discriminate.
  intros children e B Hin. cbn in B. injection B as <-. destruct Hin.
Defined.

(** *** The dashed outline *)

Lemma last_default {A : Type} (l : list A) :
  forall a d d', last (a :: l) d = last (a :: l) d'.
Proof.
  induction l as [| b l IH]; intros a d d'; [reflexivity |].
  change (last (b :: l) d = last (b :: l) d'). apply IH.
Qed.

Lemma outline_from (suf : list CornerPoint) :
  forall pre,
    flat_map rendered
      (map (fun ip => connectingLine (pre ++ suf) (snd ip) (fst ip))
           (combine (seq (List.length pre) (List.length suf)) suf))
    = map (fun ab => segment (fst ab) (snd ab)) (combine suf (tl suf))
      ++ match suf with
         | [] => []
         | p :: _ =>
             if List.length (pre ++ suf) <? 4 then []
             else [segment (last suf p) (hd p (pre ++ suf))]
         end.
Proof.
  induction suf as [| p suf IH]; intros pre; [reflexivity |].
  change (seq (List.length pre) (List.length (p :: suf)))
    with (List.length pre :: seq (S (List.length pre)) (List.length suf)).
  cbn [combine map flat_map fst snd tl].
  destruct suf as [| q rest].
  - cbn [List.length seq combine map flat_map app last]. rewrite app_nil_r.
    unfold connectingLine.
    replace (nth_error (pre ++ [p]) (List.length pre + 1)) with (@None CornerPoint)
      by (symmetry; apply nth_error_None; rewrite length_app; cbn; lia).
    replace (List.length pre =? List.length (pre ++ [p]) - 1) with true
      by (symmetry; apply Nat.eqb_eq; rewrite length_app; cbn; lia).
    cbn [andb].
    destruct (List.length (pre ++ [p]) <? 4); [reflexivity |].
    cbn [rendered app]. unfold segment. do 2 f_equal.
    all: destruct pre; reflexivity.
  - specialize (IH (pre ++ [p])).
    rewrite <- app_assoc in IH. cbn [app] in IH.
    rewrite length_app in IH. cbn [List.length] in IH.
    rewrite Nat.add_1_r in IH.
    change (List.length (q :: rest)) with (S (List.length rest)).
    rewrite IH. clear IH.
    unfold connectingLine at 1.
    replace (nth_error (pre ++ p :: q :: rest) (List.length pre + 1))
      with (Some q).
    2:{ symmetry. rewrite nth_error_app2 by lia.
        replace (List.length pre + 1 - List.length pre) with 1 by lia.
        reflexivity. }
    replace (List.length pre =? List.length (pre ++ p :: q :: rest) - 1)
      with false
      by (symmetry; apply Nat.eqb_neq; rewrite length_app; cbn; lia).
    assert (L : last (p :: q :: rest) p = last (q :: rest) q).
    { change (last (p :: q :: rest) p) with (last (q :: rest) p).
      apply last_default. }
    assert (F : hd p (pre ++ p :: q :: rest) = hd q (pre ++ p :: q :: rest))
      by (destruct pre; reflexivity).
    rewrite L, F.
    cbn [andb rendered app combine map fst snd tl]. reflexivity.
Qed.

(** The outline closes at four.  With fewer than two points nothing is
    drawn; with two or three points the overlay joins each point to the
    next and stops at the last one; with four (or more) points it also
    joins the last point back to the first, closing the
    quadrilateral. *)
Theorem outline_closes_at_four (cornerPoints : list CornerPoint) :
  match cornerPoints with
  | [] | [_] => connectingLines cornerPoints = []
  | first :: _ =>
      connectingLines cornerPoints
      = map (fun ab => segment (fst ab) (snd ab))
            (combine cornerPoints (tl cornerPoints))
        ++ (if 4 <=? List.length cornerPoints
            then [segment (last cornerPoints first) first]
            else [])
  end.
Proof.
  destruct cornerPoints as [| first [| second rest]]; try reflexivity.
  unfold connectingLines, mapi.
  replace (1 <? List.length (first :: second :: rest)) with true by reflexivity.
  pose proof (outline_from (first :: second :: rest) []) as H.
  cbn [app] in H. change (List.length (@nil CornerPoint)) with 0 in H.
  rewrite H. f_equal.
  rewrite Nat.ltb_antisym.
  now destruct (4 <=? List.length (first :: second :: rest)).
Qed.

End PageFacts.

(** ** The first version of the component *)

Module LegacyFacts.

Import Geometry.

Lemma unscaled_same_sizes (s s' : Corrector.Session) :
  Corrector.canvasSize s' = Corrector.canvasSize s ->
  Corrector.imageSize s' = Corrector.imageSize s ->
  Legacy.unscaled s -> Legacy.unscaled s'.
Proof.
  unfold Legacy.unscaled. intros -> ->. tauto.
Qed.

Lemma step_corresponds (w : Corrector.World)
      (sl : Legacy.Session * list Corrector.Toast) (op : Corrector.Op) :
  Legacy.pointer_only op ->
  Legacy.unscaled (Corrector.session w) -> Legacy.corresponds w sl ->
  Legacy.unscaled (Corrector.session (Corrector.step w op)) /\
  Legacy.corresponds (Corrector.step w op) (Legacy.step sl op).
Proof.
  intros P U (Hp & Hu & Hd & Ht). destruct sl as [s log]. cbn [fst snd] in *.
  destruct op as [rect event | rect event pointId | | point | | canvas img];
    cbn [Legacy.step].
  - unfold Legacy.handleCanvasClick. rewrite <- Hu, <- Hp, length_map.
    destruct (CorrectorFacts.click_cases w) as [I | [Hl Hlt]].
    + rewrite CorrectorFacts.click_ignored by exact I.
      replace (negb (truthy (Corrector.originalImageUrl (Corrector.session w)))
               || (4 <=? List.length (Corrector.cornerPoints (Corrector.session w))))%nat
        with true.
      * split; [exact U |]. unfold Legacy.corresponds. cbn [fst snd].
        rewrite app_nil_r. tauto.
      * symmetry. apply orb_true_iff. destruct I as [I | I].
        -- left. now rewrite I.
        -- right. now apply Nat.leb_le.
    + rewrite CorrectorFacts.click_accepted by assumption.
      rewrite Hl. replace (4 <=? _)%nat with false
        by (symmetry; apply Nat.leb_gt; exact Hlt).
      cbn [negb orb]. split; [exact U |].
      unfold Legacy.corresponds.
      cbn [fst snd Corrector.session Corrector.commit Corrector.cornerPoints
           Corrector.originalImageUrl Corrector.draggedPoint Corrector.toasts
           Legacy.cornerPoints Legacy.originalImage Legacy.draggedPoint].
      repeat split; try assumption.
      * rewrite map_app. cbn [map]. do 2 f_equal. unfold Legacy.forget.
        cbn [Corrector.Corner.x Corrector.Corner.y Corrector.Corner.id].
        rewrite U. reflexivity.
      * unfold Corrector.count. now rewrite Ht.
  - unfold Legacy.handlePointDrag. rewrite <- Hd.
    destruct (CorrectorFacts.drag_rest rect event pointId w)
      as (T & _ & _ & O & _ & D & Ec & Ei).
    split; [now apply (unscaled_same_sizes (Corrector.session w)) |].
    pose proof (CorrectorFacts.drag_corner_points rect event pointId w) as M.
    cbv zeta in M.
    unfold Legacy.corresponds. rewrite M, T, O, D. clear M.
    destruct (strict_eq (Corrector.draggedPoint (Corrector.session w)) pointId);
      cbn [negb andb fst snd Legacy.cornerPoints Legacy.originalImage
           Legacy.draggedPoint].
    + rewrite app_nil_r, <- Hp, !map_map. repeat split; try assumption.
      apply map_ext. intros p. unfold Legacy.forget at 2.
      cbn [Legacy.Point.id].
      destruct (strict_eq (JsNumber (Corrector.Corner.id p)) pointId);
        [| reflexivity].
      unfold Legacy.forget.
      cbn [Corrector.Corner.x Corrector.Corner.y Corrector.Corner.id].
      rewrite U. reflexivity.
    + rewrite app_nil_r, map_id. tauto.
  - split; [exact U |]. unfold Legacy.corresponds. cbn. rewrite Ht. tauto.
  - split; [exact U |]. unfold Legacy.corresponds. cbn.
    rewrite app_nil_r. tauto.
  - split; [exact U |]. unfold Legacy.corresponds. cbn.
    rewrite app_nil_r. tauto.
  - destruct P.
Qed.

(** The current component refines the first one where no scaling
    applies.  On a canvas that shows the image at its own size, or that
    is not measured yet, so that the conversion to image coordinates is
    the identity, every sequence of clicks, drags, resets, begin-drag
    and release gestures takes corresponding states of the two versions
    to corresponding states: the same points with the same ids and
    coordinates, the same dragged id, the same toasts. *)
Theorem current_refines_first (w : Corrector.World)
        (sl : Legacy.Session * list Corrector.Toast) (ops : list Corrector.Op) :
  Legacy.unscaled (Corrector.session w) -> Legacy.corresponds w sl ->
  Forall Legacy.pointer_only ops ->
  Legacy.corresponds (Corrector.steps ops w) (Legacy.steps ops sl).
Proof.
  intros U C F. revert w sl U C.
  induction F as [| op ops P F IH]; intros w sl U C; [exact C |].
  destruct (step_corresponds w sl op P U C) as [U' C'].
  exact (IH _ _ U' C').
Qed.

Lemma current_refines_first_witness :
  Legacy.corresponds
    (Corrector.steps Samples.five_clicks
       (Corrector.mkWorld
          (Corrector.mkSession (Some "img-1") (Some "u") None [] false false
                               JsNull Samples.image_10 Samples.image_10) [] []))
    (Legacy.steps Samples.five_clicks
       (Legacy.mkSession (Some "data") None [] false JsNull, [])).
Proof.
  apply current_refines_first.
  - intros a b.
    rewrite GeometryFacts.to_image_scaled by (cbn; qc_closed).
    cbn [Corrector.session Corrector.canvasSize Corrector.imageSize].
    f_equal; field; cbn; qc_closed.
  - repeat split.
  - repeat constructor.
Defined.

(** *** Upload in the first version *)



End LegacyFacts.
